(** * Kita Growth Engine: the growth-projection core

    A shallow embedding of the model math of [src/KitaGrowthEngine.jsx]
    ([calculateMRR], [calcIndependentImpact], [generateCoreInsight] and the
    remaining-upside ranking of the 30-day plan), and the properties the
    specification states about it; then what the components compute around
    that core: the state and the handlers of [KitaGrowthEngine], the lines of
    [LeverCard] and the points of [MRRChart].

    The source computes on JavaScript numbers.  The embedding is written once,
    over an interface [JSNumber] of the operations the source uses, and is
    read at two instances.  [Exact.num] is the one the general properties are
    proved at: rationals with exact arithmetic, extended with the three
    non-finite values a JavaScript number can take ([Infinity], [-Infinity],
    [NaN]), so that a division by zero yields what it yields in the source;
    rounding error and overflow of binary64, and the sign of zero, are not
    represented there.  [Binary64] is the arithmetic JavaScript runs, on the
    primitive floats; the concrete scenarios are replayed at it. *)

From Stdlib Require Import ZArith QArith Qround Qabs Qpower Lqa Lia.
From Stdlib Require Import List String Bool Permutation Sorted.
From Stdlib Require Floats.
Import ListNotations.

Set Implicit Arguments.

(** ** The interface of JavaScript numbers *)

Declare Scope js_scope.
Delimit Scope js_scope with js.

Class JSNumber (num : Type) : Type := {
  lit : Q -> num;                 (* a decimal literal of the source *)
  js_add : num -> num -> num;     (* x + y *)
  js_sub : num -> num -> num;     (* x - y *)
  js_mul : num -> num -> num;     (* x * y *)
  js_div : num -> num -> num;     (* x / y *)
  js_gt : num -> num -> bool;     (* x > y *)
  Math_pow : num -> Z -> num;     (* Math.pow(x, m), m an integer *)
  Math_round : num -> num;
  Math_abs : num -> num;
  Math_max : num -> num -> num;
}.

Notation "x + y" := (js_add x y) : js_scope.
Notation "x - y" := (js_sub x y) : js_scope.
Notation "x * y" := (js_mul x y) : js_scope.
Notation "x / y" := (js_div x y) : js_scope.
Notation "x >? y" := (js_gt x y) (at level 70, no associativity) : js_scope.
Notation "' z" := (lit (inject_Z z)) (at level 1, format "' z") : js_scope.

(** [a ?? b]: the left operand unless it is null or undefined. *)
Definition nullish {A : Type} (o : option A) (d : A) : A :=
  match o with Some v => v | None => d end.
Notation "o ?? d" := (nullish o d) (at level 45, left associativity) : js_scope.

(** ** Exact numbers with the non-finite values *)

Module Exact.

Local Open Scope Q_scope.

Inductive num : Type :=
| Fin (q : Q)
| Inf (negative : bool)
| NaN.

Definition Qneg (q : Q) : bool := if Qlt_le_dec q 0 then true else false.
Definition Qzero (q : Q) : bool := Qeq_bool q 0.

Definition add (x y : num) : num :=
  match x, y with
  | NaN, _ | _, NaN => NaN
  | Fin a, Fin b => Fin (a + b)
  | Fin _, Inf s | Inf s, Fin _ => Inf s
  | Inf s, Inf t => if Bool.eqb s t then Inf s else NaN
  end.

Definition opp (x : num) : num :=
  match x with
  | NaN => NaN
  | Fin a => Fin (- a)
  | Inf s => Inf (negb s)
  end.

Definition sub (x y : num) : num := add x (opp y).

Definition mul (x y : num) : num :=
  match x, y with
  | NaN, _ | _, NaN => NaN
  | Fin a, Fin b => Fin (a * b)
  | Fin a, Inf s | Inf s, Fin a =>
      if Qzero a then NaN else Inf (xorb s (Qneg a))
  | Inf s, Inf t => Inf (xorb s t)
  end.

Definition div (x y : num) : num :=
  match x, y with
  | NaN, _ | _, NaN => NaN
  | Fin a, Fin b =>
      if Qzero b then (if Qzero a then NaN else Inf (Qneg a))
      else Fin (a / b)
  | Fin _, Inf _ => Fin 0
  | Inf s, Fin b => Inf (xorb s (Qneg b))
  | Inf _, Inf _ => NaN
  end.

Definition gt (x y : num) : bool :=
  match x, y with
  | NaN, _ | _, NaN => false
  | Fin a, Fin b => if Qlt_le_dec b a then true else false
  | Fin _, Inf s => s
  | Inf s, Fin _ => negb s
  | Inf s, Inf t => negb s && t
  end.

(** [Math.pow] at an integer exponent; [Math.pow(x, 0)] is 1 for every [x]. *)
Definition pow (x : num) (m : Z) : num :=
  if (m =? 0)%Z then Fin 1 else
  match x with
  | NaN => NaN
  | Fin a =>
      if Qzero a && (m <? 0)%Z then Inf false else Fin (a ^ m)
  | Inf s =>
      if (m <? 0)%Z then Fin 0 else Inf (s && Z.odd m)
  end.

(** [Math.round]: the nearest integer, a tie going up. *)
Definition round (x : num) : num :=
  match x with
  | Fin a => Fin (inject_Z (Qfloor (a + (1 # 2))))
  | _ => x
  end.

Definition abs (x : num) : num :=
  match x with
  | NaN => NaN
  | Fin a => Fin (Qabs a)
  | Inf _ => Inf false
  end.

Definition max (x y : num) : num :=
  match x, y with
  | NaN, _ | _, NaN => NaN
  | _, _ => if gt y x then y else x
  end.

Definition finite (x : num) : bool :=
  match x with Fin _ => true | _ => false end.

(** The order of the finite numbers: it holds of no value that is not
    finite. *)
Definition leb (x y : num) : bool :=
  match x, y with Fin a, Fin b => Qle_bool a b | _, _ => false end.

Definition ltb (x y : num) : bool :=
  match x, y with Fin a, Fin b => negb (Qle_bool b a) | _, _ => false end.

(** A finite number that is zero, and one that is not. *)
Definition zero (x : num) : bool :=
  match x with Fin a => Qzero a | _ => false end.

Definition nonzero (x : num) : bool :=
  match x with Fin a => negb (Qzero a) | _ => false end.

Definition le (x y : num) : Prop := leb x y = true.
Definition lt (x y : num) : Prop := ltb x y = true.

End Exact.

#[export] Instance Exact_JSNumber : JSNumber Exact.num := {|
  lit := Exact.Fin;
  js_add := Exact.add;
  js_sub := Exact.sub;
  js_mul := Exact.mul;
  js_div := Exact.div;
  js_gt := Exact.gt;
  Math_pow := Exact.pow;
  Math_round := Exact.round;
  Math_abs := Exact.abs;
  Math_max := Exact.max;
|}.

Notation "x [<=] y" := (Exact.le x y) (at level 70, no associativity).
Notation "x [<] y" := (Exact.lt x y) (at level 70, no associativity).

(** ** Binary64 numbers *)

Module Binary64.

Import PrimFloat SpecFloat FloatOps.

Local Open Scope float_scope.

(** The float nearest to an integer. *)
Definition of_Z (z : Z) : float :=
  SF2Prim (binary_normalize prec emax z 0 false).

(** A decimal literal [n / d]: the float nearest to it, when [n] and [d] are
    below 2^53 (as for every literal of the source). *)
Definition literal (q : Q) : float := of_Z (Qnum q) / of_Z (Zpos (Qden q)).

Definition gt (x y : float) : bool := y <? x.

Definition is_nan (x : float) : bool := negb (x =? x).

(** [Math.max]: [NaN] if an argument is, and [+0] above [-0]. *)
Definition max (x y : float) : float :=
  if is_nan x || is_nan y then nan
  else if (x =? 0) && (y =? 0) then x + y
  else if x <? y then y else x.

(** [Math.round]: the nearest integer, a tie going up; a float of exponent 0
    or more is an integer already, and a negative float that rounds to zero
    gives [-0]. *)
Definition round (x : float) : float :=
  match Prim2SF x with
  | S754_finite s m e =>
      if (0 <=? e)%Z then x else
      let n := if s then Zneg m else Zpos m in
      let z := ((2 * n + 2 ^ (- e)) / 2 ^ (1 - e))%Z in
      if (z =? 0)%Z then (if s then - 0 else 0) else of_Z z
  | _ => x
  end.

(** [Math.pow] is approximated by the host, within no stated bound.  This
    one multiplies repeatedly. *)
Definition pow_by_multiplication (x : float) (m : Z) : float :=
  match m with
  | Z0 => 1
  | Zpos p => Pos.iter (fun y => y * x) 1 p
  | Zneg p => 1 / Pos.iter (fun y => y * x) 1 p
  end.

End Binary64.

Definition Binary64_JSNumber (host_pow : PrimFloat.float -> Z -> PrimFloat.float) :
    JSNumber PrimFloat.float := {|
  lit := Binary64.literal;
  js_add := PrimFloat.add;
  js_sub := PrimFloat.sub;
  js_mul := PrimFloat.mul;
  js_div := PrimFloat.div;
  js_gt := Binary64.gt;
  Math_pow := host_pow;
  Math_round := Binary64.round;
  Math_abs := PrimFloat.abs;
  Math_max := Binary64.max;
|}.

Definition B64 : JSNumber PrimFloat.float :=
  Binary64_JSNumber Binary64.pow_by_multiplication.

(** ** The model math *)

Section Engine.

Context {num : Type} `{JSNumber num}.

Local Open Scope js_scope.

(** The editable baseline assumptions. *)
Record Assumptions : Type := {
  customers : num;
  arpu : num;
  churnRate : num;
  activationRate : num;
  leadsPerMonth : num;
  demoRate : num;
  trialRate : num;
  paidRate : num;
  leadGrowthRate : num;
}.

Definition DEFAULT_ASSUMPTIONS : Assumptions := {|
  customers := '15;
  arpu := '6;
  churnRate := '5;
  activationRate := '35;
  leadsPerMonth := '50;
  demoRate := '45;
  trialRate := '65;
  paidRate := '55;
  leadGrowthRate := '8;
|}.

Definition ACTIVATION_WEIGHT : num := lit 0.4.

(** The constants of one pass of the loop of [calculateMRR], at month [m]. *)
Definition leads (assumptions : Assumptions) (m : Z) : num :=
  assumptions.(leadsPerMonth)
  * Math_pow ('1 + assumptions.(leadGrowthRate) / '100) m.

Definition newCustomers (assumptions : Assumptions) (activationRatio w : num)
    (m : Z) : num :=
  leads assumptions m
  * (assumptions.(demoRate) / '100)
  * (assumptions.(trialRate) / '100)
  * (assumptions.(paidRate) / '100)
  * (activationRatio * w + ('1 - w)).

Definition retained (customers0 churn : num) : num :=
  customers0 * ('1 - churn / '100).

(** The body of the loop: the customer count after month [m], from the count
    before it. *)
Definition month_body (assumptions : Assumptions) (churn activationRatio w : num)
    (m : Z) (customers0 : num) : num :=
  retained customers0 churn + newCustomers assumptions activationRatio w m.

(** [for (let m = ...; m <= month; m++)] with [n] iterations left to run. *)
Fixpoint for_months (assumptions : Assumptions) (churn activationRatio w : num)
    (n : nat) (m : Z) (customers0 : num) : num :=
  match n with
  | O => customers0
  | S n' =>
      for_months assumptions churn activationRatio w n' (m + 1)%Z
        (month_body assumptions churn activationRatio w m customers0)
  end.

Definition calculateMRR (assumptions : Assumptions)
    (churnOverride arpuOverride activationOverride : option num)
    (month : nat) : num :=
  let churn := churnOverride ?? assumptions.(churnRate) in
  let arpu := arpuOverride ?? assumptions.(arpu) in
  let activation := activationOverride ?? assumptions.(activationRate) in
  let activationRatio := activation / assumptions.(activationRate) in
  let w := ACTIVATION_WEIGHT in
  let customers := for_months assumptions churn activationRatio w month 1
                     assumptions.(customers) in
  Math_round (customers * arpu * '1000).

(** The projection in the words of the specification: months [1..horizon],
    each with the lead volume compounded from month zero, and the blend of the
    activation ratio at 0.4 against 0.6. *)
Definition spec_month (assumptions : Assumptions)
    (churnOverride activationOverride : num) (customers0 : num) (m : nat) : num :=
  let leads :=
    assumptions.(leadsPerMonth)
    * Math_pow ('1 + assumptions.(leadGrowthRate) / '100) (Z.of_nat m) in
  let activationRatio := activationOverride / assumptions.(activationRate) in
  let newCustomers :=
    leads * (assumptions.(demoRate) / '100) * (assumptions.(trialRate) / '100)
    * (assumptions.(paidRate) / '100)
    * (activationRatio * lit 0.4 + lit 0.6) in
  let retained := customers0 * ('1 - churnOverride / '100) in
  retained + newCustomers.

Definition spec_customers (assumptions : Assumptions)
    (churnOverride activationOverride : num) (horizon : nat) : num :=
  fold_left (spec_month assumptions churnOverride activationOverride)
    (seq 1 horizon) assumptions.(customers).

Definition spec_project (assumptions : Assumptions)
    (churnOverride arpuOverride activationOverride : num) (horizon : nat) : num :=
  Math_round
    (spec_customers assumptions churnOverride activationOverride horizon
     * arpuOverride * '1000).

(** *** Growth levers *)

Inductive LeverId : Type := Churn | Arpu | Activation.   (* "churn", "arpu", "activation" *)

Definition LeverId_eqb (i j : LeverId) : bool :=
  match i, j with
  | Churn, Churn | Arpu, Arpu | Activation, Activation => true
  | _, _ => false
  end.

Inductive Direction : Type := lower_is_better | higher_is_better.

Record Lever : Type := {
  id : LeverId;
  lever_label : string;
  baseKey : Assumptions -> num;
  targetValue : num;
  lever_min : num;
  lever_max : num;
  lever_step : num;
  direction : Direction;
}.

Definition LEVERS : list Lever := [
  {| id := Churn; lever_label := "Retention"; baseKey := churnRate;
     targetValue := '2; lever_min := lit 0.5; lever_max := '10;
     lever_step := lit 0.5; direction := lower_is_better |};
  {| id := Arpu; lever_label := "Monetization"; baseKey := arpu;
     targetValue := '9; lever_min := '2; lever_max := '20;
     lever_step := lit 0.5; direction := higher_is_better |};
  {| id := Activation; lever_label := "Activation"; baseKey := activationRate;
     targetValue := '60; lever_min := '10; lever_max := '90;
     lever_step := '5; direction := higher_is_better |}
].

(** The object [o] of [calcIndependentImpact], and [o[leverId] = value]. *)
Record Overrides : Type := {
  o_churn : num;
  o_arpu : num;
  o_activation : num;
}.

Definition set_lever (o : Overrides) (leverId : LeverId) (value : num) : Overrides :=
  match leverId with
  | Churn => {| o_churn := value; o_arpu := o.(o_arpu); o_activation := o.(o_activation) |}
  | Arpu => {| o_churn := o.(o_churn); o_arpu := value; o_activation := o.(o_activation) |}
  | Activation => {| o_churn := o.(o_churn); o_arpu := o.(o_arpu); o_activation := value |}
  end.

Definition calcIndependentImpact (assumptions : Assumptions)
    (leverId : LeverId) (value : num) : num :=
  let baseMRR :=
    calculateMRR assumptions (Some assumptions.(churnRate))
      (Some assumptions.(arpu)) (Some assumptions.(activationRate)) 12 in
  let o := {| o_churn := assumptions.(churnRate); o_arpu := assumptions.(arpu);
              o_activation := assumptions.(activationRate) |} in
  let o := set_lever o leverId value in
  let newMRR :=
    calculateMRR assumptions (Some o.(o_churn)) (Some o.(o_arpu))
      (Some o.(o_activation)) 12 in
  Math_round (((newMRR - baseMRR) / baseMRR) * '100).

(** *** [Array.prototype.sort] with a comparator

    The sort is stable, and a comparator result that is positive puts its
    first argument after its second; a result that is zero, negative or [NaN]
    leaves the two in place.  Insertion from the right is one such sort, and
    every stable sort agrees with it when the comparator is consistent. *)
Fixpoint insert_by {A : Type} (cmp : A -> A -> num) (x : A) (l : list A) : list A :=
  match l with
  | [] => [x]
  | y :: l' => if cmp x y >? '0 then y :: insert_by cmp x l' else x :: l
  end.

Definition sort_by {A : Type} (cmp : A -> A -> num) (l : list A) : list A :=
  fold_right (insert_by cmp) [] l.

(** *** The dynamic insight generator *)

Record Impact : Type := {
  label : string;
  pct : num;
  leverId : LeverId;
}.

(** The four template literals of [generateCoreInsight], each with the values
    it interpolates. *)
Inductive Insight : Type :=
| LargestUpsideAtTargets (top second : string * num)
    (* "At these baselines, ${top.label} (+${top.pct}%) and ${second.label}
        (+${second.pct}%) have the largest upside at their target values. ..." *)
| DrivingAllTheMovement (top : Impact)
    (* "With your current adjustments, ${top.label} is driving all the MRR
        movement (+${top.pct}%). ..." *)
| RetentionAndMonetization (combined acq : num)
    (* "Retention + monetization are driving ${...}% combined uplift vs
        ${acqImpact.pct}% from activation alone. ..." *)
| LargestLever (top : Impact) (runnerUp : option Impact).
    (* "Largest lever: ${top.label} at +${top.pct}%. " and, when there is a
        runner-up, "Combined with ${modified[1].label} (+${modified[1].pct}%),
        these compound ..." *)

Definition sum_pct (l : list Impact) : num :=
  fold_left (fun s i => s + i.(pct)) l '0.

Definition generateCoreInsight (assumptions : Assumptions)
    (churn arpu activation : num) : Insight :=
  let impacts := sort_by (fun a b => b.(pct) - a.(pct)) [
    {| label := "retention"; leverId := Churn;
       pct := Math_abs (calcIndependentImpact assumptions Churn churn) |};
    {| label := "monetization"; leverId := Arpu;
       pct := Math_abs (calcIndependentImpact assumptions Arpu arpu) |};
    {| label := "activation"; leverId := Activation;
       pct := Math_abs (calcIndependentImpact assumptions Activation activation) |}
  ] in
  let modified := filter (fun i => i.(pct) >? '0) impacts in
  match modified with
  | [] =>
      let targetImpacts := sort_by (fun a b => snd b - snd a) [
        ("retention"%string, Math_abs (calcIndependentImpact assumptions Churn '2));
        ("monetization"%string, Math_abs (calcIndependentImpact assumptions Arpu '9));
        ("activation"%string, Math_abs (calcIndependentImpact assumptions Activation '60))
      ] in
      let top := nth 0 targetImpacts (EmptyString, '0) in
      let second := nth 1 targetImpacts (EmptyString, '0) in
      LargestUpsideAtTargets top second
  | top :: rest =>
      if (List.length modified =? 1)%nat then DrivingAllTheMovement top else
      let acqImpact :=
        find (fun i => LeverId_eqb i.(leverId) Activation) modified in
      let retMonImpact :=
        filter (fun i => negb (LeverId_eqb i.(leverId) Activation)) modified in
      match acqImpact with
      | Some acq =>
          if (2 <=? List.length retMonImpact)%nat
             && (sum_pct retMonImpact >? acq.(pct) * lit 1.5)
          then RetentionAndMonetization (sum_pct retMonImpact) acq.(pct)
          else LargestLever top
                 (if (1 <? List.length modified)%nat then nth_error modified 1 else None)
      | None =>
          LargestLever top
            (if (1 <? List.length modified)%nat then nth_error modified 1 else None)
      end
  end.

(** *** The 30-day plan, ranked by remaining upside

    The plan of the component [KitaGrowthEngine]; of each item the lever and
    the title are kept, the other texts play no part in the ranking. *)

Record PlanItem : Type := {
  item_leverId : LeverId;
  lever : string;
  title : string;
}.

Definition planItems : list PlanItem := [
  {| item_leverId := Churn; lever := "Retention";
     title := "Build an automated early-warning system for churn" |};
  {| item_leverId := Activation; lever := "Activation";
     title := "Cut the integration drop-off in half" |};
  {| item_leverId := Arpu; lever := "Monetization";
     title := "Run the pricing research that unlocks ARPU" |}
].

(** [{...item, upside, currentImpact}] and [{...item, remaining}]. *)
Record Upside : Type := {
  item : PlanItem;
  upside : num;
  currentImpact : num;
}.

Record RemainingUpside : Type := {
  scored : Upside;
  remaining : num;
}.

(** [leverId === "churn" ? effectiveChurn : leverId === "arpu" ? effectiveArpu
    : effectiveActivation]. *)
Definition currentVal (leverId : LeverId)
    (effectiveChurn effectiveArpu effectiveActivation : num) : num :=
  match leverId with
  | Churn => effectiveChurn
  | Arpu => effectiveArpu
  | Activation => effectiveActivation
  end.

(** [LEVERS.find(l => l.id === leverId).targetValue]; every id is in [LEVERS]. *)
Definition target_of (leverId : LeverId) : num :=
  match find (fun l => LeverId_eqb l.(id) leverId) LEVERS with
  | Some l => l.(targetValue)
  | None => '0
  end.

Definition upsides (assumptions : Assumptions)
    (effectiveChurn effectiveArpu effectiveActivation : num) : list Upside :=
  map (fun item =>
         let target := target_of item.(item_leverId) in
         {| item := item;
            upside := Math_abs (calcIndependentImpact assumptions item.(item_leverId) target);
            currentImpact :=
              Math_abs (calcIndependentImpact assumptions item.(item_leverId)
                          (currentVal item.(item_leverId) effectiveChurn
                             effectiveArpu effectiveActivation)) |})
      planItems.

Definition remainingUpside (assumptions : Assumptions)
    (effectiveChurn effectiveArpu effectiveActivation : num) : list RemainingUpside :=
  sort_by (fun a b => b.(remaining) - a.(remaining))
    (map (fun item =>
            {| scored := item;
               remaining := Math_max '0 (item.(upside) - item.(currentImpact)) |})
         (upsides assumptions effectiveChurn effectiveArpu effectiveActivation)).

End Engine.

(** [DEFAULT_ASSUMPTIONS] after the ARPU field was emptied: the input handler
    stores [parseFloat(e.target.value) || 0], that is 0. *)
Definition ARPU_CLEARED {num : Type} `{JSNumber num} : Assumptions := {|
  customers := lit 15;
  arpu := lit 0;
  churnRate := lit 5;
  activationRate := lit 35;
  leadsPerMonth := lit 50;
  demoRate := lit 45;
  trialRate := lit 65;
  paidRate := lit 55;
  leadGrowthRate := lit 8;
|}.

(** The baseline MRR at month 12, as [calcIndependentImpact] computes it. *)
Definition baseMRR12 {num : Type} `{JSNumber num} (a : Assumptions) : num :=
  calculateMRR a (Some a.(churnRate)) (Some a.(arpu)) (Some a.(activationRate)) 12.

(** The kind of sentence [generateCoreInsight] selects. *)
Inductive Template : Type :=
| upside_at_targets
| single_lever
| retention_and_monetization
| largest_lever.

Definition template_of {num : Type} (i : @Insight num) : Template :=
  match i with
  | LargestUpsideAtTargets _ _ => upside_at_targets
  | DrivingAllTheMovement _ => single_lever
  | RetentionAndMonetization _ _ => retention_and_monetization
  | LargestLever _ _ => largest_lever
  end.

(** How many of the impacts pass the filter [pct > 0] ("modified"). *)
Definition count_modified {num : Type} `{JSNumber num} (pcts : list num) : nat :=
  List.length (filter (fun x => js_gt x (lit (inject_Z 0))) pcts).




(** An assumption set of finite numbers. *)
Definition finite_assumptions (a : @Assumptions Exact.num) : bool :=
  Exact.finite a.(customers) && Exact.finite a.(arpu)
  && Exact.finite a.(churnRate) && Exact.finite a.(activationRate)
  && Exact.finite a.(leadsPerMonth) && Exact.finite a.(demoRate)
  && Exact.finite a.(trialRate) && Exact.finite a.(paidRate)
  && Exact.finite a.(leadGrowthRate).

(** The ranges the simulation is meant for, read at the exact numbers:
    non-negative customers, leads and funnel rates, lead growth of at least
    -100 percent, and a positive baseline activation rate. *)
Definition in_range (a : @Assumptions Exact.num) : Prop :=
  lit 0 [<=] a.(customers) /\ lit 0 [<=] a.(leadsPerMonth)
  /\ lit 0 [<=] a.(demoRate) /\ lit 0 [<=] a.(trialRate)
  /\ lit 0 [<=] a.(paidRate) /\ lit (-100) [<=] a.(leadGrowthRate)
  /\ lit 0 [<] a.(activationRate).

(** ** The components around the model math

    What the components [AssumptionInput], [MRRChart], [LeverCard] and
    [KitaGrowthEngine] compute and keep as state; their markup is left out.
    They use a few more operations on numbers. *)

Class JSCompare (num : Type) : Type := {
  js_eq : num -> num -> bool;       (* x === y *)
  js_truthy : num -> bool;          (* ToBoolean(x): not 0, not NaN *)
  js_neg_infinity : num;            (* -Infinity, the Math.max of nothing *)
}.

Module ExactCompare.

Import Exact.

Definition eq (x y : num) : bool :=
  match x, y with
  | Fin a, Fin b => Qeq_bool a b
  | Inf s, Inf t => Bool.eqb s t
  | _, _ => false
  end.

Definition truthy (x : num) : bool :=
  match x with
  | Fin a => negb (Qzero a)
  | Inf _ => true
  | NaN => false
  end.

Definition is_nan (x : num) : bool :=
  match x with NaN => true | _ => false end.

End ExactCompare.

#[export] Instance Exact_JSCompare : JSCompare Exact.num := {|
  js_eq := ExactCompare.eq;
  js_truthy := ExactCompare.truthy;
  js_neg_infinity := Exact.Inf true;
|}.

Definition B64_JSCompare : JSCompare PrimFloat.float := {|
  js_eq := PrimFloat.eqb;
  js_truthy := fun x => negb (PrimFloat.eqb x PrimFloat.zero) && negb (Binary64.is_nan x);
  js_neg_infinity := PrimFloat.neg_infinity;
|}.

Section Components.

Context {num : Type} `{JSNumber num} `{JSCompare num}.

Local Open Scope js_scope.

(** *** The assumption fields by key *)

Inductive AssumptionKey : Type :=
| key_customers | key_arpu | key_churnRate | key_activationRate
| key_leadsPerMonth | key_demoRate | key_trialRate | key_paidRate
| key_leadGrowthRate.

(** [assumptions[key]]. *)
Definition get_assumption (a : (@Assumptions num)) (key : AssumptionKey) : num :=
  match key with
  | key_customers => a.(customers)
  | key_arpu => a.(arpu)
  | key_churnRate => a.(churnRate)
  | key_activationRate => a.(activationRate)
  | key_leadsPerMonth => a.(leadsPerMonth)
  | key_demoRate => a.(demoRate)
  | key_trialRate => a.(trialRate)
  | key_paidRate => a.(paidRate)
  | key_leadGrowthRate => a.(leadGrowthRate)
  end.

(** [{ ...prev, [key]: val }]. *)
Definition set_assumption (prev : (@Assumptions num)) (key : AssumptionKey) (val : num)
    : (@Assumptions num) :=
  {| customers := match key with key_customers => val | _ => prev.(customers) end;
     arpu := match key with key_arpu => val | _ => prev.(arpu) end;
     churnRate := match key with key_churnRate => val | _ => prev.(churnRate) end;
     activationRate :=
       match key with key_activationRate => val | _ => prev.(activationRate) end;
     leadsPerMonth :=
       match key with key_leadsPerMonth => val | _ => prev.(leadsPerMonth) end;
     demoRate := match key with key_demoRate => val | _ => prev.(demoRate) end;
     trialRate := match key with key_trialRate => val | _ => prev.(trialRate) end;
     paidRate := match key with key_paidRate => val | _ => prev.(paidRate) end;
     leadGrowthRate :=
       match key with key_leadGrowthRate => val | _ => prev.(leadGrowthRate) end |}.

(** [x || 0], as [AssumptionInput] applies it to [parseFloat(e.target.value)]. *)
Definition or_zero (x : num) : num := if js_truthy x then x else '0.

(** *** The state of [KitaGrowthEngine] and its handlers *)

Record State : Type := {
  st_assumptions : (@Assumptions num);
  st_assumptionsOpen : bool;
  st_expanded : option LeverId;
  st_churn : option num;
  st_arpu : option num;
  st_activation : option num;
}.

Definition initial_state : State := {|
  st_assumptions := DEFAULT_ASSUMPTIONS;
  st_assumptionsOpen := false;
  st_expanded := None;
  st_churn := None;
  st_arpu := None;
  st_activation := None;
|}.

Definition effectiveChurn (st : State) : num :=
  st.(st_churn) ?? st.(st_assumptions).(churnRate).
Definition effectiveArpu (st : State) : num :=
  st.(st_arpu) ?? st.(st_assumptions).(arpu).
Definition effectiveActivation (st : State) : num :=
  st.(st_activation) ?? st.(st_assumptions).(activationRate).

Definition handleAssumptionChange (st : State) (key : AssumptionKey) (val : num)
    : State :=
  {| st_assumptions := set_assumption st.(st_assumptions) key val;
     st_assumptionsOpen := st.(st_assumptionsOpen);
     st_expanded := st.(st_expanded);
     st_churn := match key with key_churnRate => None | _ => st.(st_churn) end;
     st_arpu := match key with key_arpu => None | _ => st.(st_arpu) end;
     st_activation :=
       match key with key_activationRate => None | _ => st.(st_activation) end |}.

(** [setChurn], [setArpu] or [setActivation], as [LEVERS.map] picks the setter
    of a lever card. *)
Definition setter (st : State) (leverId : LeverId) (v : option num) : State :=
  {| st_assumptions := st.(st_assumptions);
     st_assumptionsOpen := st.(st_assumptionsOpen);
     st_expanded := st.(st_expanded);
     st_churn := match leverId with Churn => v | _ => st.(st_churn) end;
     st_arpu := match leverId with Arpu => v | _ => st.(st_arpu) end;
     st_activation :=
       match leverId with Activation => v | _ => st.(st_activation) end |}.

Definition hitAllTargets (st : State) : State :=
  setter (setter (setter st Churn (Some '2)) Arpu (Some '9)) Activation (Some '60).

(** The "Reset" button of the levers. *)
Definition resetLevers (st : State) : State :=
  setter (setter (setter st Churn None) Arpu None) Activation None.

(** The reset button of the assumptions. *)
Definition resetAssumptions (st : State) : State :=
  let st' := resetLevers st in
  {| st_assumptions := DEFAULT_ASSUMPTIONS;
     st_assumptionsOpen := st'.(st_assumptionsOpen);
     st_expanded := st'.(st_expanded);
     st_churn := st'.(st_churn);
     st_arpu := st'.(st_arpu);
     st_activation := st'.(st_activation) |}.

(** What the user can do; a typed or dragged value arrives as the number
    [parseFloat] made of it. *)
Inductive Event : Type :=
| AssumptionTyped (key : AssumptionKey) (parsed : num)
| SliderMoved (leverId : LeverId) (parsed : num)
| HitAllTargets
| ResetLevers
| ResetAssumptions
| AssumptionsToggled
| LeverToggled (leverId : LeverId).

Definition step (st : State) (e : Event) : State :=
  match e with
  | AssumptionTyped key parsed => handleAssumptionChange st key (or_zero parsed)
  | SliderMoved leverId parsed => setter st leverId (Some parsed)
  | HitAllTargets => hitAllTargets st
  | ResetLevers => resetLevers st
  | ResetAssumptions => resetAssumptions st
  | AssumptionsToggled =>
      {| st_assumptions := st.(st_assumptions);
         st_assumptionsOpen := negb st.(st_assumptionsOpen);
         st_expanded := st.(st_expanded);
         st_churn := st.(st_churn);
         st_arpu := st.(st_arpu);
         st_activation := st.(st_activation) |}
  | LeverToggled leverId =>
      {| st_assumptions := st.(st_assumptions);
         st_assumptionsOpen := st.(st_assumptionsOpen);
         st_expanded :=
           match st.(st_expanded) with
           | Some l => if LeverId_eqb l leverId then None else Some leverId
           | None => Some leverId
           end;
         st_churn := st.(st_churn);
         st_arpu := st.(st_arpu);
         st_activation := st.(st_activation) |}
  end.

Definition run (st : State) (events : list Event) : State :=
  fold_left step events st.

(** *** What [KitaGrowthEngine] derives from its state *)

Definition projMRR12 (st : State) : num :=
  calculateMRR st.(st_assumptions) (Some (effectiveChurn st))
    (Some (effectiveArpu st)) (Some (effectiveActivation st)) 12.

Definition mrrLift (st : State) : num :=
  let baseMRR12 :=
    calculateMRR st.(st_assumptions) (Some st.(st_assumptions).(churnRate))
      (Some st.(st_assumptions).(arpu))
      (Some st.(st_assumptions).(activationRate)) 12 in
  Math_round (((projMRR12 st - baseMRR12) / baseMRR12) * '100).

Definition is_null {A : Type} (o : option A) : bool :=
  match o with None => true | Some _ => false end.

Definition isModified (st : State) : bool :=
  negb (is_null st.(st_churn)) || negb (is_null st.(st_arpu))
  || negb (is_null st.(st_activation)).

Definition computedMRR (st : State) : num :=
  Math_round (st.(st_assumptions).(customers) * st.(st_assumptions).(arpu) * '1000).

Definition coreInsight (st : State) : (@Insight num) :=
  generateCoreInsight st.(st_assumptions) (effectiveChurn st) (effectiveArpu st)
    (effectiveActivation st).

Definition plan (st : State) : list (@RemainingUpside num) :=
  remainingUpside st.(st_assumptions) (effectiveChurn st) (effectiveArpu st)
    (effectiveActivation st).

(** *** [LeverCard] *)

Definition impactPct (assumptions : (@Assumptions num)) (lever : @Lever num) (value : num) : num :=
  calcIndependentImpact assumptions lever.(id) value.

Definition potentialPct (assumptions : (@Assumptions num)) (lever : @Lever num) : num :=
  calcIndependentImpact assumptions lever.(id) lever.(targetValue).

Definition isAtBaseline (value baseValue : num) : bool := js_eq value baseValue.

(** The line under the title of a card: the upside at the target while the
    lever is at its baseline, the impact of the lever alone otherwise. *)
Inductive CardLine : Type :=
| UpTo (potential : num)
| ThisLeverAlone (impact : num).

Definition card_line (assumptions : (@Assumptions num)) (lever : @Lever num)
    (value baseValue : num) : CardLine :=
  if isAtBaseline value baseValue then UpTo (potentialPct assumptions lever)
  else ThisLeverAlone (impactPct assumptions lever value).

(** The card of a lever as [LEVERS.map] instantiates it in a state. *)
Definition card_of (st : State) (lever : @Lever num) : CardLine :=
  card_line st.(st_assumptions) lever
    (currentVal lever.(id) (effectiveChurn st) (effectiveArpu st)
       (effectiveActivation st))
    (lever.(baseKey) st.(st_assumptions)).

(** The filled share of the slider track, in percent. *)
Definition slider_fill (lever : @Lever num) (value : num) : num :=
  ((value - lever.(lever_min)) / (lever.(lever_max) - lever.(lever_min))) * '100.

(** *** [MRRChart] *)

Definition months : list nat := [0; 3; 6; 9; 12; 15; 18]%nat.

Definition chart_baseline (assumptions : (@Assumptions num)) : list num :=
  map (fun m => calculateMRR assumptions (Some assumptions.(churnRate))
                  (Some assumptions.(arpu)) (Some assumptions.(activationRate)) m)
      months.

Definition chart_projected (assumptions : (@Assumptions num)) (churn arpu activation : num)
    : list num :=
  map (fun m => calculateMRR assumptions (Some churn) (Some arpu) (Some activation) m)
      months.

(** [Math.max(...values)]. *)
Definition Math_max_of (values : list num) : num :=
  fold_left Math_max values js_neg_infinity.

Definition maxVal (assumptions : (@Assumptions num)) (churn arpu activation : num) : num :=
  Math_max_of (chart_projected assumptions churn arpu activation
               ++ chart_baseline assumptions) * lit 1.08.

Definition chartH : num := '160.

(** [(i / (months.length - 1)) * 390 + 5]. *)
Definition point_x (i : nat) : num :=
  ('(Z.of_nat i) / ('(Z.of_nat (List.length months)) - '1)) * '390 + '5.

(** [chartH - (value / maxVal) * (chartH - 10)]. *)
Definition point_y (maxVal value : num) : num :=
  chartH - (value / maxVal) * (chartH - '10).

(** The points of a series: [months.map((m, i) => ...)]. *)
Definition points (maxVal : num) (series : list num) : list (num * num) :=
  map (fun iv => (point_x (fst iv), point_y maxVal (snd iv)))
      (combine (seq 0 (List.length months)) series).

Definition projected_points (assumptions : (@Assumptions num))
    (churn arpu activation : num) : list (num * num) :=
  points (maxVal assumptions churn arpu activation)
    (chart_projected assumptions churn arpu activation).

Definition baseline_points (assumptions : (@Assumptions num))
    (churn arpu activation : num) : list (num * num) :=
  points (maxVal assumptions churn arpu activation) (chart_baseline assumptions).

End Components.

(** The key of the assumption field a lever overrides: its [baseKey]. *)
Definition baseKey_of (leverId : LeverId) : AssumptionKey :=
  match leverId with
  | Churn => key_churnRate
  | Arpu => key_arpu
  | Activation => key_activationRate
  end.

(** A value that lies from [base] in the direction a lever is tagged with. *)
Definition toward (d : Direction) (base value : Exact.num) : Prop :=
  match d with
  | lower_is_better => value [<=] base
  | higher_is_better => base [<=] value
  end.

(** An assumption set with no [NaN] in it. *)
Definition no_nan (a : @Assumptions Exact.num) : bool :=
  forallb (fun key => negb (ExactCompare.is_nan (get_assumption a key)))
    [key_customers; key_arpu; key_churnRate; key_activationRate;
     key_leadsPerMonth; key_demoRate; key_trialRate; key_paidRate;
     key_leadGrowthRate].

(** * Properties *)

(** ** The projection, over every interpretation of the numbers *)

Section Projection.

Context {num : Type} `{JSNumber num}.

Local Open Scope js_scope.

Lemma for_months_split (a : Assumptions) (churn ratio w : num) (k j : nat) :
  forall (m : Z) (c : num),
    for_months a churn ratio w (k + j) m c
    = for_months a churn ratio w j (m + Z.of_nat k)
        (for_months a churn ratio w k m c).
Proof.
  induction k as [|k IH]; intros m c.
  - simpl. now rewrite Z.add_0_r.
  - cbn [Nat.add for_months]. rewrite IH. f_equal. lia.
Qed.

Lemma for_months_last (a : Assumptions) (churn ratio w : num) (k : nat) (c : num) :
  for_months a churn ratio w (S k) 1 c
  = month_body a churn ratio w (Z.of_nat (S k)) (for_months a churn ratio w k 1 c).
Proof.
  replace (S k) with (k + 1)%nat at 1 by lia.
  rewrite for_months_split. cbn [for_months]. f_equal. lia.
Qed.

Lemma spec_customers_S (a : Assumptions) (c v : num) (h : nat) :
  spec_customers a c v (S h)
  = spec_month a c v (spec_customers a c v h) (S h).
Proof.
  unfold spec_customers. rewrite seq_S, fold_left_app. reflexivity.
Qed.

Lemma for_months_spec (a : Assumptions) (c v : num) :
  '1 - lit 0.4 = lit 0.6 ->
  forall h : nat,
    for_months a c (v / a.(activationRate)) ACTIVATION_WEIGHT h 1 a.(customers)
    = spec_customers a c v h.
Proof.
  intros Hw h. induction h as [|h IH].
  - reflexivity.
  - rewrite for_months_last, spec_customers_S, IH.
    unfold month_body, spec_month, retained, newCustomers, leads, ACTIVATION_WEIGHT.
    now rewrite Hw.
Qed.

(** C1: with the three overrides given, [calculateMRR] returns the rounded
    product of the month-[horizon] customer count, the ARPU override and 1000,
    the customer count being the one of the recurrence the specification
    words.  It holds for every interpretation of the arithmetic in which
    [1 - 0.4] is [0.6]. *)
Theorem calculateMRR_is_spec_project :
  '1 - lit 0.4 = lit 0.6 ->
  forall (a : Assumptions) (churnOverride arpuOverride activationOverride : num)
         (horizon : nat),
    calculateMRR a (Some churnOverride) (Some arpuOverride)
      (Some activationOverride) horizon
    = spec_project a churnOverride arpuOverride activationOverride horizon.
Proof.
  intros Hw a c p v h. unfold calculateMRR, spec_project. cbn [nullish].
  now rewrite for_months_spec.
Qed.

(** C6: at horizon 0 [calculateMRR] returns the initial customer count priced
    at the ARPU override, whatever the churn and activation overrides are. *)
Theorem calculateMRR_horizon_zero :
  forall (a : Assumptions) (churnOverride activationOverride : option num)
         (arpuOverride : num),
    calculateMRR a churnOverride (Some arpuOverride) activationOverride 0
    = Math_round (a.(customers) * arpuOverride * '1000).
Proof. reflexivity. Qed.

Lemma insert_by_perm {A : Type} (cmp : A -> A -> num) (x : A) (l : list A) :
  Permutation (x :: l) (insert_by cmp x l).
Proof.
  induction l as [|y l IH]; cbn [insert_by]; [reflexivity|].
  destruct (cmp x y >? '0); [|reflexivity].
  rewrite perm_swap. now constructor.
Qed.

Lemma sort_by_perm {A : Type} (cmp : A -> A -> num) (l : list A) :
  Permutation l (sort_by cmp l).
Proof.
  induction l as [|x l IH]; cbn [sort_by fold_right]; [constructor|].
  rewrite <- insert_by_perm. now constructor.
Qed.

Lemma lever_found (leverId : LeverId) :
  exists l : Lever,
    find (fun l => LeverId_eqb l.(id) leverId) LEVERS = Some l
    /\ l.(id) = leverId /\ target_of leverId = l.(targetValue).
Proof. destruct leverId; eexists; repeat split. Qed.

End Projection.

(** ** Exact arithmetic on finite numbers *)

Module ExactFacts.

Import Exact.

Local Open Scope Q_scope.

Lemma le_fin (a b : Q) : Fin a [<=] Fin b <-> a <= b.
Proof. apply Qle_bool_iff. Qed.

Lemma lt_fin (a b : Q) : Fin a [<] Fin b <-> a < b.
Proof.
  unfold lt, ltb. rewrite negb_true_iff. split.
  - intros E. apply Qnot_le_lt. intros L. apply Qle_bool_iff in L. congruence.
  - intros L. destruct (Qle_bool b a) eqn:E; [|reflexivity].
    apply Qle_bool_iff in E. exfalso. apply (Qlt_not_le _ _ L E).
Qed.

Lemma le_inv (x y : num) :
  x [<=] y -> exists a b, x = Fin a /\ y = Fin b /\ a <= b.
Proof.
  destruct x as [a| |], y as [b| |]; try discriminate.
  intros L. exists a, b. repeat split. now apply le_fin.
Qed.

Lemma lt_inv (x y : num) :
  x [<] y -> exists a b, x = Fin a /\ y = Fin b /\ a < b.
Proof.
  destruct x as [a| |], y as [b| |]; try discriminate.
  intros L. exists a, b. repeat split. now apply lt_fin.
Qed.

Lemma Qzero_false (q : Q) : ~ q == 0 -> Qzero q = false.
Proof.
  intros N. unfold Qzero. destruct (Qeq_bool q 0) eqn:E; [|reflexivity].
  apply Qeq_bool_iff in E. contradiction.
Qed.

Lemma pow_fin (a : Q) (m : Z) : (0 < m)%Z -> pow (Fin a) m = Fin (a ^ m).
Proof.
  intros Hm. unfold pow.
  replace (m =? 0)%Z with false by (symmetry; apply Z.eqb_neq; lia).
  replace (m <? 0)%Z with false by (symmetry; apply Z.ltb_ge; lia).
  now rewrite andb_false_r.
Qed.

Lemma pow_eq_fin (x : num) (a : Q) (m : Z) :
  x = Fin a -> (0 < m)%Z -> pow x m = Fin (a ^ m).
Proof. intros ->. apply pow_fin. Qed.

Lemma Qdiv_100 (x : Q) : x / 100 == x * (1 # 100).
Proof. field. Qed.

Lemma Qdiv_100_nonneg (x : Q) : 0 <= x -> 0 <= x / 100.
Proof. intros L. rewrite Qdiv_100. lra. Qed.

Lemma step_bounds (B c1 c2 churn1 churn2 r1 r2 : Q) :
  0 <= B -> 0 <= c1 <= c2 -> 0 <= churn2 <= churn1 -> churn1 <= 100 ->
  0 <= r1 <= r2 ->
  0 <= c1 * (1 - churn1 / 100) + B * (r1 * 0.4 + (1 - 0.4))
  /\ c1 * (1 - churn1 / 100) + B * (r1 * 0.4 + (1 - 0.4))
     <= c2 * (1 - churn2 / 100) + B * (r2 * 0.4 + (1 - 0.4)).
Proof.
  intros HB [Hc1 Hc] [Hu2 Hu] Hu1 [Hr1 Hr].
  rewrite !Qdiv_100. split; nra.
Qed.




Local Open Scope js_scope.

Ltac js_ops :=
  cbn [js_add js_sub js_mul js_div js_gt Math_pow Math_round Math_abs Math_max
       lit Exact_JSNumber nullish].

Lemma retained_fin (c churn : Q) :
  retained (Fin c) (Fin churn) = Fin (c * (1 - churn / 100))%Q.
Proof. reflexivity. Qed.

(** New customers of month [m]: a non-negative base volume, times the blend
    of the activation ratio. *)
Lemma newCustomers_fin (a : Assumptions) (m : Z) :
  in_range a -> (0 < m)%Z ->
  exists B : Q, (0 <= B)%Q /\
    forall r : Q,
      newCustomers a (Fin r) ACTIVATION_WEIGHT m
      = Fin (B * (r * 0.4 + (1 - 0.4)))%Q.
Proof.
  intros (_ & HL & Hd & Ht & Hp & Hg & _) Hm.
  destruct a as [c0 p0 u0 ar L d t p g]; cbn [leadsPerMonth demoRate trialRate
    paidRate leadGrowthRate] in *.
  apply le_inv in HL as (? & L' & E0 & -> & HL); injection E0 as <-.
  apply le_inv in Hd as (? & d' & E0 & -> & Hd); injection E0 as <-.
  apply le_inv in Ht as (? & t' & E0 & -> & Ht); injection E0 as <-.
  apply le_inv in Hp as (? & p' & E0 & -> & Hp); injection E0 as <-.
  apply le_inv in Hg as (? & g' & E0 & -> & Hg); injection E0 as <-.
  exists (L' * (1 + g' / 100) ^ m * (d' / 100) * (t' / 100) * (p' / 100))%Q.
  split.
  - assert (0 <= 1 + g' / 100)%Q by (rewrite Qdiv_100; lra).
    assert (0 <= (1 + g' / 100) ^ m)%Q by now apply Qpower_0_le.
    apply Qmult_le_0_compat;
      [apply Qmult_le_0_compat;
       [apply Qmult_le_0_compat; [apply Qmult_le_0_compat|]|]|];
      trivial; now apply Qdiv_100_nonneg.
  - intros r. unfold newCustomers, leads, ACTIVATION_WEIGHT.
    cbn [leadsPerMonth demoRate trialRate paidRate leadGrowthRate]. js_ops.
    rewrite (pow_eq_fin (a := (1 + g' / 100)%Q)) by (reflexivity || lia).
    reflexivity.
Qed.

(** Two runs of the loop, the second with no more churn, no lower activation
    ratio and no fewer customers than the first: both stay finite and
    non-negative, and the second stays above the first. *)
Lemma for_months_mono (a : Assumptions) :
  in_range a ->
  forall (n : nat) (m : Z) (c1 c2 churn1 churn2 r1 r2 : Q),
    (0 < m)%Z ->
    (0 <= c1 <= c2)%Q -> (0 <= churn2 <= churn1)%Q -> (churn1 <= 100)%Q ->
    (0 <= r1 <= r2)%Q ->
    exists q1 q2 : Q,
      for_months a (Fin churn1) (Fin r1) ACTIVATION_WEIGHT n m (Fin c1) = Fin q1
      /\ for_months a (Fin churn2) (Fin r2) ACTIVATION_WEIGHT n m (Fin c2) = Fin q2
      /\ (0 <= q1 <= q2)%Q.
Proof.
  intros Ha n. induction n as [|n IH]; intros m c1 c2 churn1 churn2 r1 r2 Hm Hc Hu Hu1 Hr.
  - exists c1, c2. auto.
  - cbn [for_months]. unfold month_body.
    destruct (newCustomers_fin Ha Hm) as (B & HB & EB).
    rewrite !EB, !retained_fin.
    change (Fin ?x + Fin ?y) with (Fin (x + y)%Q).
    apply IH; try lia; trivial.
    destruct (step_bounds HB Hc Hu Hu1 Hr). split; assumption.
Qed.

Lemma ratio_fin (act ar : Q) :
  (0 < ar)%Q -> Fin act / Fin ar = Fin (act / ar)%Q.
Proof.
  intros Har. js_ops. unfold div.
  rewrite (Qzero_false (q := ar)); [reflexivity | lra].
Qed.

Lemma ratio_mono (a1 a2 ar : Q) :
  (0 < ar)%Q -> (0 <= a1 <= a2)%Q -> (0 <= a1 / ar <= a2 / ar)%Q.
Proof.
  intros Har [H1 H2]. split.
  - apply Qle_shift_div_l; lra.
  - apply Qmult_le_compat_r; trivial. apply Qinv_le_0_compat. lra.
Qed.

(** The runs of [calculateMRR] from the assumption set itself. *)
Lemma run_mono (a : Assumptions) (n : nat) (churn1 churn2 act1 act2 : num) :
  in_range a ->
  '0 [<=] churn2 -> churn2 [<=] churn1 -> churn1 [<=] '100 ->
  '0 [<=] act1 -> act1 [<=] act2 ->
  exists q1 q2 : Q,
    for_months a churn1 (act1 / a.(activationRate)) ACTIVATION_WEIGHT n 1
      a.(customers) = Fin q1
    /\ for_months a churn2 (act2 / a.(activationRate)) ACTIVATION_WEIGHT n 1
         a.(customers) = Fin q2
    /\ (0 <= q1 <= q2)%Q.
Proof.
  intros Ha H0 H21 H1 Hv0 Hv.
  pose proof Ha as (Hc & _ & _ & _ & _ & _ & Har).
  apply le_inv in Hc as (? & c & E0 & Ec & Hc); injection E0 as <-.
  apply lt_inv in Har as (? & ar & E0 & Ear & Har); injection E0 as <-.
  apply le_inv in H0 as (? & u2 & E0 & -> & H0); injection E0 as <-.
  apply le_inv in H21 as (? & u1 & E0 & -> & H21); injection E0 as <-.
  apply le_inv in H1 as (? & ? & E0 & E1 & H1); injection E0 as <-;
    injection E1 as <-.
  apply le_inv in Hv0 as (? & v1 & E0 & -> & Hv0); injection E0 as <-.
  apply le_inv in Hv as (? & v2 & E0 & -> & Hv); injection E0 as <-.
  rewrite Ec, Ear, !ratio_fin by trivial.
  apply for_months_mono; trivial; try lia.
  - split; [assumption | apply Qle_refl].
  - split; assumption.
  - apply ratio_mono; auto.
Qed.

Lemma mrr_of_run (a : Assumptions) (co po ao : option num) (n : nat) :
  calculateMRR a co po ao n
  = round (for_months a (co ?? a.(churnRate))
             ((ao ?? a.(activationRate)) / a.(activationRate))
             ACTIVATION_WEIGHT n 1 a.(customers)
           * (po ?? a.(arpu)) * '1000).
Proof. reflexivity. Qed.

Lemma add_zero_l (x : num) : '0 + x = x.
Proof.
  destruct x as [[n d]| |]; try reflexivity.
  js_ops. unfold add, Qplus. cbn. now rewrite Z.mul_1_r.
Qed.

Lemma add_commutes (x y : num) : x + y = y + x.
Proof.
  destruct x as [[n d]|s|], y as [[n' d']|s'|]; try reflexivity.
  - js_ops. unfold add, Qplus. cbn [Qnum Qden]. f_equal.
    now rewrite Z.add_comm, Pos.mul_comm.
  - js_ops. unfold add. destruct s, s'; reflexivity.
Qed.

Lemma priced_fin (q p : Q) :
  Fin q * Fin p * '1000 = Fin (q * p * 1000)%Q.
Proof. reflexivity. Qed.

End ExactFacts.

(** ** The projection at the exact numbers *)

Section ExactProjection.

Import Exact ExactFacts.

Local Open Scope js_scope.

Variable a : @Assumptions num.
Hypothesis a_in_range : in_range a.




End ExactProjection.

(** ** The independent impact at the exact numbers *)

Section ExactImpact.

Import Exact ExactFacts.

Local Open Scope js_scope.

Lemma pct_of_self (b : num) :
  nonzero b = true -> round (((b - b) / b) * '100) = '0.
Proof.
  destruct b as [q| |]; try discriminate. intros Hq.
  apply negb_true_iff in Hq. js_ops. unfold sub, add, opp, div.
  rewrite Hq. unfold mul, round. do 2 f_equal.
  assert (Nq : ~ (q == 0)%Q) by now apply Qeq_bool_neq.
  assert (E : ((q + - q) / q * inject_Z 100 + (1 # 2) == 1 # 2)%Q)
    by (unfold inject_Z; field; exact Nq).
  now rewrite E.
Qed.


Variable a : @Assumptions num.

(** C7, as the code has it: when the baseline month-12 MRR is a number other
    than zero, each lever's independent impact at its own baseline value is 0. *)
Theorem impact_at_baseline_is_zero (lever : Lever) :
  In lever LEVERS ->
  nonzero (baseMRR12 a) = true ->
  calcIndependentImpact a lever.(id) (lever.(baseKey) a) = '0.
Proof.
  intros Hin Hb.
  destruct Hin as [<-|[<-|[<-|[]]]];
    unfold calcIndependentImpact; cbn [id baseKey set_lever o_churn o_arpu
      o_activation]; now apply pct_of_self.
Qed.




End ExactImpact.

(** ** Sorting by a finite key *)

Section StableSort.

Import Exact ExactFacts.

Local Open Scope js_scope.

Context {A : Type} (key : A -> num) (rank : A -> nat).

Let cmp (x y : A) : num := key y - key x.

Lemma gt_difference (kx ky : Q) :
  (Fin ky - Fin kx >? '0) = true <-> (kx < ky)%Q.
Proof.
  js_ops. unfold sub, add, opp, gt.
  destruct (Qlt_le_dec (inject_Z 0) (ky + - kx)) as [L|L];
    unfold inject_Z in L; split; intros G; try reflexivity; try discriminate; lra.
Qed.



End StableSort.

(** ** Finite inputs give finite results *)

Section Finiteness.

Import Exact ExactFacts.

Local Open Scope js_scope.

Lemma finite_inv (x : num) : finite x = true -> exists q : Q, x = Fin q.
Proof. destruct x; try discriminate. now eexists. Qed.

Lemma nonzero_inv (x : num) :
  nonzero x = true -> exists q : Q, x = Fin q /\ Qzero q = false.
Proof.
  destruct x as [q| |]; try discriminate. cbn [nonzero].
  rewrite negb_true_iff. now exists q.
Qed.

Variable a : @Assumptions num.
Hypothesis a_finite : finite_assumptions a = true.
Hypothesis a_activation : nonzero a.(activationRate) = true.

Lemma newCustomers_finite (r : Q) (m : Z) :
  (0 < m)%Z -> exists q : Q, newCustomers a (Fin r) ACTIVATION_WEIGHT m = Fin q.
Proof.
  intros Hm. unfold finite_assumptions in a_finite.
  repeat (apply andb_prop in a_finite as [a_finite ?]).
  unfold newCustomers, leads, ACTIVATION_WEIGHT.
  repeat match goal with
         | F : finite ?x = true |- _ =>
             apply finite_inv in F as [? F]; rewrite ?F; clear F
         end.
  js_ops. erewrite pow_eq_fin by (reflexivity || lia). now eexists.
Qed.

Lemma for_months_finite (churn r : Q) (n : nat) :
  forall (m : Z) (c : Q), (0 < m)%Z ->
    exists q : Q,
      for_months a (Fin churn) (Fin r) ACTIVATION_WEIGHT n m (Fin c) = Fin q.
Proof.
  induction n as [|n IH]; intros m c Hm; cbn [for_months].
  - now eexists.
  - unfold month_body. destruct (newCustomers_finite r Hm) as [q ->].
    rewrite retained_fin. apply IH. lia.
Qed.

Lemma calculateMRR_finite (churn arpu activation : num) (n : nat) :
  finite churn = true -> finite arpu = true -> finite activation = true ->
  exists z : Z,
    calculateMRR a (Some churn) (Some arpu) (Some activation) n
    = Fin (inject_Z z).
Proof.
  intros [u ->]%finite_inv [p ->]%finite_inv [v ->]%finite_inv.
  rewrite mrr_of_run. cbn [nullish].
  pose proof a_finite as F. unfold finite_assumptions in F.
  repeat (apply andb_prop in F as [F ?]).
  apply finite_inv in F as [c ->].
  destruct (nonzero_inv _ a_activation) as (ar & -> & Har).
  assert (E : Fin v / Fin ar = Fin (v / ar)%Q) by (js_ops; unfold div; now rewrite Har).
  rewrite E. destruct (@for_months_finite u (v / ar)%Q n 1%Z c) as [q ->]; [lia|].
  now eexists.
Qed.

Hypothesis a_baseline : nonzero (baseMRR12 a) = true.

Lemma impact_finite (leverId : LeverId) (value : num) :
  finite value = true ->
  exists z : Z, calcIndependentImpact a leverId value = Fin (inject_Z z).
Proof.
  intros Fv. unfold calcIndependentImpact.
  destruct (nonzero_inv _ a_baseline) as (b & Eb & Hb).
  unfold baseMRR12 in Eb. rewrite Eb.
  pose proof a_finite as F. unfold finite_assumptions in F.
  repeat (apply andb_prop in F as [F ?]).
  assert (Far : finite a.(activationRate) = true) by assumption.
  match goal with
  | |- context [calculateMRR a (Some ?u) (Some ?p) (Some ?v) 12] =>
      destruct (@calculateMRR_finite u p v 12) as [z ->];
        [destruct leverId; assumption ..|]
  end.
  js_ops. unfold sub, add, opp, div. rewrite Hb. now eexists.
Qed.


End Finiteness.

(** ** The insight and the plan at the exact numbers *)

Section ExactRanking.

Import Exact ExactFacts.

Local Open Scope js_scope.

Ltac insight_step :=
  cbn [sort_by fold_right insert_by filter find pct leverId LeverId_eqb negb
       andb List.length Nat.eqb Nat.leb Nat.ltb nth_error sum_pct fold_left
       template_of].

Variable a : @Assumptions num.

(** C4, as the code has it: when two or more levers have an impact that
    passes the filter [pct > 0], the sentence on retention and monetization
    against activation is selected exactly when all three levers pass the
    filter and the impacts of retention and monetization together exceed 1.5
    times the impact of activation, and it reports that sum against the
    impact of activation; in every other case, and so whenever exactly two
    levers pass the filter, the sentence on the largest lever is selected,
    and always with a runner-up: the two it names are two different levers,
    each with its own label and impact, and both pass the filter. *)
Theorem insight_selection (churn arpu activation : num) :
  let r := Math_abs (calcIndependentImpact a Churn churn) in
  let m := Math_abs (calcIndependentImpact a Arpu arpu) in
  let v := Math_abs (calcIndependentImpact a Activation activation) in
  let impacts :=
    [{| label := "retention"; pct := r; leverId := Churn |};
     {| label := "monetization"; pct := m; leverId := Arpu |};
     {| label := "activation"; pct := v; leverId := Activation |}] in
  (2 <= count_modified [r; m; v])%nat ->
  if (r >? '0) && (m >? '0) && (v >? '0) && (r + m >? v * lit 1.5)
  then generateCoreInsight a churn arpu activation
       = RetentionAndMonetization (r + m) v
  else exists top second : Impact,
         generateCoreInsight a churn arpu activation
         = LargestLever top (Some second)
         /\ In top impacts /\ In second impacts
         /\ top.(leverId) <> second.(leverId)
         /\ (top.(pct) >? '0) = true /\ (second.(pct) >? '0) = true.
Proof.
  unfold generateCoreInsight.
  generalize (Math_abs (calcIndependentImpact a Churn churn))
             (Math_abs (calcIndependentImpact a Arpu arpu))
             (Math_abs (calcIndependentImpact a Activation activation)).
  intros r m v. cbv zeta. unfold count_modified.
  destruct (r >? '0) eqn:Er, (m >? '0) eqn:Em, (v >? '0) eqn:Ev;
    cbn [filter]; rewrite ?Er, ?Em, ?Ev; cbn [List.length]; intros Hc;
    try (exfalso; lia); clear Hc; insight_step.
  all: repeat match goal with
       | |- context [if (?x - ?y >? '0) then _ else _] =>
           destruct (x - y >? '0); insight_step
       end.
  all: rewrite ?Er, ?Em, ?Ev; insight_step.
  all: rewrite ?Er, ?Em, ?Ev; insight_step.
  all: rewrite ?Er, ?Em, ?Ev; insight_step.
  all: rewrite ?add_zero_l, ?(add_commutes m r).
  all: try destruct (r + m >? v * lit 1.5); cbn [andb].
  all: try reflexivity.
  all: eexists _, _; split; [reflexivity|]; cbn [In pct leverId];
    repeat split; auto 6; discriminate.
Qed.


End ExactRanking.

(** ** The default scenario *)

Section Defaults.

Import Exact ExactFacts.

Local Open Scope js_scope.

Let D : @Assumptions num := DEFAULT_ASSUMPTIONS.

Lemma defaults_in_range : in_range D.
Proof. repeat split. Qed.

(** C9: with the default assumptions, the month-12 MRR with the three levers
    at their targets (churn 2, ARPU 9, activation 60) is above the month-12
    MRR of each lever moved to its target alone. *)
Theorem all_targets_beat_each_single_lever :
  let mrr c p v := calculateMRR D (Some c) (Some p) (Some v) 12 in
  mrr '2 '9 '60 = '1848472
  /\ mrr '2 '6 '35 [<] mrr '2 '9 '60
  /\ mrr '5 '9 '35 [<] mrr '2 '9 '60
  /\ mrr '5 '6 '60 [<] mrr '2 '9 '60.
Proof. vm_compute. repeat split. Qed.

(** The single-lever MRRs of C9, and the baseline. *)
Example default_month12 :
  calculateMRR D None None None 12 = '841635
  /\ calculateMRR D (Some '2) None None 12 = '974161
  /\ calculateMRR D None (Some '9) None 12 = '1262453
  /\ calculateMRR D None None (Some '60) 12 = '1068208.
Proof. vm_compute. repeat split. Qed.





(** Beyond a churn of 100 the MRR is not monotone in the churn either: at
    horizon 2 a churn of 200 gives less than a churn of 300. *)
Example churn_above_100_is_not_monotone :
  calculateMRR D (Some '200) (Some '6) (Some '35) 2
  [<] calculateMRR D (Some '300) (Some '6) (Some '35) 2.
Proof. vm_compute. reflexivity. Qed.


(** C4 as stated fails: with retention and monetization at their targets and
    activation at its baseline, two levers are modified and their combined
    impact (16 + 50) exceeds 1.5 times the impact of activation (0), yet the
    sentence on the largest lever is selected. *)
Lemma two_modified_levers_get_largest_lever :
  let r := Math_abs (calcIndependentImpact D Churn '2) in
  let m := Math_abs (calcIndependentImpact D Arpu '9) in
  let v := Math_abs (calcIndependentImpact D Activation '35) in
  r = '16 /\ m = '50 /\ v = '0
  /\ count_modified [r; m; v] = 2%nat
  /\ (r + m >? v * lit 1.5) = true
  /\ generateCoreInsight D '2 '9 '35
     = LargestLever {| label := "monetization"; pct := '50; leverId := Arpu |}
         (Some {| label := "retention"; pct := '16; leverId := Churn |}).
Proof. vm_compute. repeat split. Qed.

Lemma insight_selection_default :
  (2 <= count_modified
          [Math_abs (calcIndependentImpact D Churn '2);
           Math_abs (calcIndependentImpact D Arpu '9);
           Math_abs (calcIndependentImpact D Activation '60)])%nat
  /\ generateCoreInsight D '2 '9 '60 = RetentionAndMonetization '66 '27.
Proof.
  assert (C : (2 <= count_modified
                     [Math_abs (calcIndependentImpact D Churn '2);
                      Math_abs (calcIndependentImpact D Arpu '9);
                      Math_abs (calcIndependentImpact D Activation '60)])%nat).
  { vm_compute. apply le_S, le_n. }
  split; [exact C|].
  pose proof (@insight_selection D '2 '9 '60 C) as W.
  vm_compute in W. vm_compute. exact W.
Defined.

Lemma impact_at_baseline_is_zero_default :
  nonzero (baseMRR12 D) = true
  /\ Forall (fun lever => calcIndependentImpact D lever.(id) (lever.(baseKey) D) = '0)
       LEVERS.
Proof.
  assert (B : nonzero (baseMRR12 D) = true) by (vm_compute; reflexivity).
  split; [exact B|].
  apply Forall_forall. intros lever Hin.
  exact (@impact_at_baseline_is_zero D lever Hin B).
Defined.


End Defaults.

(** ** The scenario with the ARPU field emptied *)

Section ArpuCleared.

Import Exact ExactFacts.

Local Open Scope js_scope.

Let cleared : @Assumptions num := ARPU_CLEARED.



(** C7 as stated fails: with a baseline month-12 MRR of zero the impact of
    each lever at its own baseline value is [NaN], not 0. *)
Lemma zero_baseline_impact_at_baseline_is_nan :
  Forall (fun lever => calcIndependentImpact cleared lever.(id) (lever.(baseKey) cleared) = NaN)
    LEVERS.
Proof.
  repeat (apply Forall_cons; [vm_compute; reflexivity|]). apply Forall_nil.
Qed.


End ArpuCleared.

(** ** The scenarios at binary64 *)

Section Binary64Replay.

Import PrimFloat.

Local Open Scope js_scope.

(** At horizon 0 [Math.pow] is not called: whatever the host's, an ARPU of
    6 + 2^-20 is priced like an ARPU of 6. *)
Example binary64_arpu_horizon_zero (host_pow : float -> Z -> float) :
  let B := Binary64_JSNumber host_pow in
  @calculateMRR _ B DEFAULT_ASSUMPTIONS (Some '5) (Some '6) (Some '35) 0
  = 90000%float
  /\ @calculateMRR _ B DEFAULT_ASSUMPTIONS (Some '5)
       (Some (lit (6291457 # 1048576))) (Some '35) 0
     = 90000%float.
Proof. vm_compute. split; reflexivity. Qed.

#[local] Existing Instance B64.

Let D : @Assumptions float := DEFAULT_ASSUMPTIONS.
Let cleared : @Assumptions float := ARPU_CLEARED.

(** C1 on the default scenario with all targets, at the exact numbers and at
    binary64: [1 - 0.4] is [0.6] in both. *)
Lemma calculateMRR_is_spec_project_default :
  ('1 - lit 0.4 = lit 0.6 :> Exact.num)
  /\ calculateMRR (DEFAULT_ASSUMPTIONS : @Assumptions Exact.num)
       (Some '2) (Some '9) (Some '60) 12
     = spec_project DEFAULT_ASSUMPTIONS '2 '9 '60 12
  /\ ('1 - lit 0.4 = lit 0.6 :> float)
  /\ calculateMRR D (Some '2) (Some '9) (Some '60) 12
     = spec_project D '2 '9 '60 12.
Proof.
  split; [reflexivity|]. split.
  - apply (@calculateMRR_is_spec_project Exact.num Exact_JSNumber); reflexivity.
  - split; [vm_compute; reflexivity|].
    apply (@calculateMRR_is_spec_project float B64). vm_compute. reflexivity.
Defined.

Example binary64_default_month12 :
  calculateMRR D None None None 12 = 841635%float
  /\ calculateMRR D (Some '2) None None 12 = 974161%float
  /\ calculateMRR D None (Some '9) None 12 = 1262453%float
  /\ calculateMRR D None None (Some '60) 12 = 1068208%float
  /\ calculateMRR D (Some '2) (Some '9) (Some '60) 12 = 1848472%float.
Proof. vm_compute. repeat split. Qed.

Example binary64_churn_200 :
  calculateMRR D (Some '200) None None 1 = (-37876)%float
  /\ calculateMRR D (Some '200) (Some '6) (Some '35) 2 = 94170%float
  /\ calculateMRR D (Some '300) (Some '6) (Some '35) 2 = 312046%float.
Proof. vm_compute. repeat split. Qed.

Example binary64_arpu_month12 :
  calculateMRR D (Some '5) (Some (lit (6291457 # 1048576))) (Some '35) 12
  = calculateMRR D (Some '5) (Some '6) (Some '35) 12.
Proof. vm_compute. reflexivity. Qed.

Example binary64_two_modified_levers :
  generateCoreInsight D '2 '9 '35
  = LargestLever {| label := "monetization"; pct := 50%float; leverId := Arpu |}
      (Some {| label := "retention"; pct := 16%float; leverId := Churn |})
  /\ generateCoreInsight D '2 '9 '60 = RetentionAndMonetization 66%float 27%float.
Proof. vm_compute. split; reflexivity. Qed.

Example binary64_plan :
  map (fun r => (r.(scored).(item).(item_leverId), r.(remaining)))
    (remainingUpside D '3 '6 '35)
  = [(Arpu, 50%float); (Activation, 27%float); (Churn, 6%float)].
Proof. vm_compute. reflexivity. Qed.

Example binary64_zero_baseline :
  baseMRR12 cleared = 0%float
  /\ calcIndependentImpact cleared Arpu '9 = infinity
  /\ calcIndependentImpact cleared Arpu '0 = nan
  /\ calcIndependentImpact cleared Churn '5 = nan
  /\ calcIndependentImpact cleared Activation '35 = nan
  /\ generateCoreInsight cleared '5 '9 '35
     = DrivingAllTheMovement
         {| label := "monetization"; pct := infinity; leverId := Arpu |}
  /\ map (fun r => r.(remaining)) (remainingUpside cleared '5 '0 '35) = [nan; nan; nan].
Proof. vm_compute. repeat split. Qed.

(** *** Where binary64 leaves the exact numbers

    The general properties of the projection and of the plan are proved at
    the exact numbers.  On inputs within the same ranges the binary64 run can
    differ, by an overflow or by the rounding of a sum. *)



(** No customers, an ARPU of 0, 1.7e308 leads a month that all convert, and
    no lead growth. *)
Let flood : @Assumptions float := {|
  customers := lit 0; arpu := lit 0; churnRate := lit 5;
  activationRate := lit 35; leadsPerMonth := lit (inject_Z (17 * 10 ^ 307));
  demoRate := lit 100; trialRate := lit 100; paidRate := lit 100;
  leadGrowthRate := lit 0;
|}.

(** Monotonicity in the activation is lost to an overflow: at the baseline
    activation the month-1 MRR is 0; at an activation of 60 the new customers
    overflow to [Infinity], and their product with the ARPU 0 is [NaN]. *)
Example binary64_activation_overflow :
  calculateMRR flood (Some '5) (Some '0) (Some '35) 1 = 0%float
  /\ calculateMRR flood (Some '5) (Some '0) (Some '60) 1 = nan.
Proof. vm_compute. split; reflexivity. Qed.

(** 2^1010 customers at an ARPU of 2^-1018. *)
Let crowd : @Assumptions float := {|
  customers := lit (inject_Z (2 ^ 1010)); arpu := lit (1 # 2 ^ 1018);
  churnRate := lit 5; activationRate := lit 35; leadsPerMonth := lit 50;
  demoRate := lit 45; trialRate := lit 65; paidRate := lit 55;
  leadGrowthRate := lit 8;
|}.

(** Every input is finite and the baseline month-12 MRR is 2, yet the impact
    of the ARPU overflows to [Infinity] at its target as at 20, and the
    [remaining] of that row is [Math.max(0, Infinity - Infinity)], [NaN]. *)
Example binary64_infinite_impacts :
  baseMRR12 crowd = 2%float
  /\ calcIndependentImpact crowd Arpu '9 = infinity
  /\ calcIndependentImpact crowd Arpu '20 = infinity
  /\ map (fun r => (r.(scored).(item).(item_leverId), r.(remaining)))
       (remainingUpside crowd '5 '20 '35)
     = [(Churn, 50%float); (Activation, 0%float); (Arpu, nan)].
Proof. vm_compute. repeat split. Qed.

(** One customer, and the churn at the first binary64 number above 100. *)
Let single : @Assumptions float := {|
  customers := lit 1; arpu := lit 6; churnRate := lit 5;
  activationRate := lit 35; leadsPerMonth := lit 50; demoRate := lit 45;
  trialRate := lit 65; paidRate := lit 55; leadGrowthRate := lit 8;
|}.

(** The retained customers are negative, here too, but by so little that the
    count after the month is the new customers of the month, not below. *)
Example binary64_churn_just_above_100 :
  let churn := lit (inject_Z 100 + (1 # 2 ^ 46)) in
  (churn >? '100) = true
  /\ retained '1 churn = (- 0x1p-52)%float
  /\ PrimFloat.eqb
       (month_body single churn ('35 / '35) ACTIVATION_WEIGHT 1 '1)
       (newCustomers single ('35 / '35) ACTIVATION_WEIGHT 1) = true.
Proof. vm_compute. repeat split. Qed.

End Binary64Replay.

(** * The components *)

(** ** Over every interpretation of the numbers *)

Section ComponentFacts.

Context {num : Type} `{JSNumber num} `{JSCompare num}.

Local Open Scope js_scope.

Lemma baseKey_of_lever (a : @Assumptions num) (lever : @Lever num) :
  In lever LEVERS -> get_assumption a (baseKey_of lever.(id)) = lever.(baseKey) a.
Proof. intros [<-|[<-|[<-|[]]]]; reflexivity. Qed.

(** X1: with one lever moved and the other two left at their baselines, the
    lift shown against the projected month-12 MRR is the impact shown on the
    card of that lever. *)
Theorem lift_of_one_lever_is_its_card_impact
    (st : @State num) (lever : @Lever num) (value : num) :
  mrrLift (setter (resetLevers st) lever.(id) (Some value))
  = impactPct st.(st_assumptions) lever value.
Proof. destruct lever as [[] ? ? ? ? ? ? ?]; reflexivity. Qed.

(** X2: the first value of the chart's baseline series is the current MRR the
    header shows, and the first value of the projected series is the rounded
    revenue of the current customers at the ARPU in effect, whatever the
    churn and the activation are. *)
Theorem chart_starts_at_current_mrr (st : @State num) :
  nth_error (chart_baseline st.(st_assumptions)) 0 = Some (computedMRR st)
  /\ nth_error (chart_projected st.(st_assumptions) (effectiveChurn st)
                  (effectiveArpu st) (effectiveActivation st)) 0
     = Some (Math_round (st.(st_assumptions).(customers) * effectiveArpu st
                         * '1000)).
Proof. split; reflexivity. Qed.

End ComponentFacts.

(** ** Bounds on the independent impact *)

Section ImpactBounds.

Import Exact ExactFacts.

Local Open Scope js_scope.

(** Two projections, the second with no more churn, no lower ARPU and no
    lower activation than the first: both are non-negative integers, and the
    second is no less than the first. *)
Lemma mrr_bounds (a : @Assumptions num) (n : nat)
    (churn1 churn2 arpu1 arpu2 act1 act2 : num) :
  in_range a ->
  '0 [<=] churn2 -> churn2 [<=] churn1 -> churn1 [<=] '100 ->
  '0 [<=] arpu1 -> arpu1 [<=] arpu2 ->
  '0 [<=] act1 -> act1 [<=] act2 ->
  exists z1 z2 : Z,
    calculateMRR a (Some churn1) (Some arpu1) (Some act1) n = Fin (inject_Z z1)
    /\ calculateMRR a (Some churn2) (Some arpu2) (Some act2) n = Fin (inject_Z z2)
    /\ (0 <= z1 <= z2)%Z.
Proof.
  intros Ha H0 H21 H1 Hp0 Hp Hv0 Hv.
  destruct (@run_mono a n churn1 churn2 act1 act2)
    as (q1 & q2 & E1 & E2 & Hq1 & Hq); trivial.
  apply le_inv in Hp0 as (? & p1 & E0 & -> & Hp0); injection E0 as <-.
  apply le_inv in Hp as (? & p2 & E0 & -> & Hp); injection E0 as <-.
  rewrite !mrr_of_run. cbn [nullish]. rewrite E1, E2, !priced_fin.
  unfold inject_Z in Hp0.
  assert (P1 : (0 <= q1 * p1)%Q) by (apply Qmult_le_0_compat; assumption).
  assert (P2 : (0 <= q1 * (p2 - p1))%Q) by (apply Qmult_le_0_compat; lra).
  assert (P3 : (0 <= (q2 - q1) * p2)%Q) by (apply Qmult_le_0_compat; lra).
  exists (Qfloor (q1 * p1 * 1000 + (1 # 2))), (Qfloor (q2 * p2 * 1000 + (1 # 2))).
  repeat split.
  - change 0%Z with (Qfloor 0). apply Qfloor_resp_le. lra.
  - apply Qfloor_resp_le. lra.
Qed.

(** The rounded percentage change from a positive integer [b] to an integer
    [n]: its sign, its lower bound and its growth with [n]. *)
Lemma pct_change (n b : Z) :
  (0 < b)%Z ->
  exists z : Z,
    Math_round (((Fin (inject_Z n) - Fin (inject_Z b)) / Fin (inject_Z b)) * '100)
    = Fin (inject_Z z)
    /\ ((b <= n)%Z -> (0 <= z)%Z)
    /\ ((n <= b)%Z -> (z <= 0)%Z)
    /\ ((0 <= n)%Z -> (-100 <= z)%Z).
Proof.
  intros Hb. js_ops. unfold sub, add, opp, div.
  assert (Nb : ~ (inject_Z b == 0)%Q).
  { unfold inject_Z, Qeq. cbn. lia. }
  rewrite (Qzero_false Nb). unfold mul, round. eexists. split; [reflexivity|].
  set (x := ((inject_Z n + - inject_Z b) / inject_Z b * inject_Z 100)%Q).
  assert (Pb : (0 < inject_Z b)%Q) by (unfold inject_Z, Qlt; cbn; lia).
  assert (Ex : (x == (inject_Z n - inject_Z b) * 100 / inject_Z b)%Q).
  { unfold x. change (inject_Z 100) with 100%Q. field. exact Nb. }
  repeat split; intros Hn.
  - change 0%Z with (Qfloor 0). apply Qfloor_resp_le.
    assert (0 <= x)%Q; [|lra].
    rewrite Ex. apply Qle_shift_div_l; trivial.
    rewrite Zle_Qle in Hn. lra.
  - change 0%Z with (Qfloor (1 # 2)). apply Qfloor_resp_le.
    assert (x <= 0)%Q; [|lra].
    rewrite Ex. apply Qle_shift_div_r; trivial.
    rewrite Zle_Qle in Hn. lra.
  - change (-100)%Z with (Qfloor (-100 + (1 # 2))). apply Qfloor_resp_le.
    assert (-100 <= x)%Q; [|lra].
    rewrite Ex. apply Qle_shift_div_l; trivial.
    rewrite Zle_Qle in Hn. change (inject_Z 0) with 0%Q in Hn. lra.
Qed.

Lemma pct_change_mono (n1 n2 b : Z) :
  (0 < b)%Z -> (n1 <= n2)%Z ->
  Math_round (((Fin (inject_Z n1) - Fin (inject_Z b)) / Fin (inject_Z b)) * '100)
  [<=]
  Math_round (((Fin (inject_Z n2) - Fin (inject_Z b)) / Fin (inject_Z b)) * '100).
Proof.
  intros Hb Hn. js_ops. unfold sub, add, opp, div.
  assert (Nb : ~ (inject_Z b == 0)%Q).
  { unfold inject_Z, Qeq. cbn. lia. }
  rewrite (Qzero_false Nb). unfold mul, round.
  apply le_fin. rewrite <- Zle_Qle. apply Qfloor_resp_le.
  assert (Pb : (0 < inject_Z b)%Q) by (unfold inject_Z, Qlt; cbn; lia).
  apply Qplus_le_l. change (inject_Z 100) with 100%Q.
  apply Qmult_le_compat_r; [|lra].
  apply Qmult_le_compat_r; [|apply Qlt_le_weak, Qinv_lt_0_compat, Pb].
  rewrite Zle_Qle in Hn. lra.
Qed.

Lemma le_refl_of (x y : num) : x [<=] y -> x [<=] x /\ y [<=] y.
Proof.
  intros L. apply le_inv in L as (p & q & -> & -> & _).
  split; apply le_fin, Qle_refl.
Qed.

Lemma le_trans_of (x y z : num) : x [<=] y -> y [<=] z -> x [<=] z.
Proof.
  intros (p & q & -> & -> & L1)%le_inv (q' & r & E & -> & L2)%le_inv.
  injection E as <-. apply le_fin. now apply Qle_trans with q.
Qed.

Lemma le_integers (x y : Z) :
  Fin (inject_Z x) [<=] Fin (inject_Z y) <-> (x <= y)%Z.
Proof. rewrite le_fin, <- Zle_Qle. tauto. Qed.

Lemma nothing_remains (u c : Z) :
  (0 <= u <= c)%Z ->
  Math_max '0 (Math_abs (Fin (inject_Z u)) - Math_abs (Fin (inject_Z c))) = '0.
Proof.
  intros [Hu Hc]. js_ops. unfold abs, sub, add, opp, max, gt.
  destruct (Qlt_le_dec _ _) as [L|L]; [exfalso|reflexivity].
  rewrite !Qabs_pos in L by (change 0%Q with (inject_Z 0); rewrite <- Zle_Qle; lia).
  rewrite Zle_Qle in Hc. change (inject_Z 0) with 0%Q in L. lra.
Qed.

Variable a : @Assumptions num.
Hypothesis a_in_range : in_range a.
Hypothesis a_churn : '0 [<=] a.(churnRate) /\ a.(churnRate) [<=] '100.
Hypothesis a_arpu : '0 [<=] a.(arpu).
Hypothesis a_baseline : '0 [<] baseMRR12 a.

Lemma activation_nonneg : '0 [<=] a.(activationRate).
Proof.
  destruct a_in_range as (_ & _ & _ & _ & _ & _ & Har).
  apply lt_inv in Har as (? & q & E0 & -> & L); injection E0 as <-.
  apply le_fin. now apply Qlt_le_weak.
Qed.

(** The month-12 MRR of the sliders at [churn], [arpu] and [activation],
    against the baseline. *)
Let lift (churn arpu activation : num) : num :=
  Math_round (((calculateMRR a (Some churn) (Some arpu) (Some activation) 12
                - baseMRR12 a) / baseMRR12 a) * '100).

Lemma baseline_positive :
  exists zb : Z, baseMRR12 a = Fin (inject_Z zb) /\ (0 < zb)%Z.
Proof.
  pose proof activation_nonneg as Hv. destruct a_churn as [Hu0 Hu1].
  destruct (le_refl_of Hu0) as [_ Ruu], (le_refl_of a_arpu) as [_ Rpp],
    (le_refl_of Hv) as [_ Rvv].
  destruct (@mrr_bounds a 12 a.(churnRate) a.(churnRate) a.(arpu) a.(arpu)
              a.(activationRate) a.(activationRate))
    as (zb & zb2 & E & _ & _); trivial.
  exists zb. split; [exact E|].
  pose proof a_baseline as L. unfold baseMRR12 in L. rewrite E in L.
  apply lt_fin in L. now rewrite <- Zlt_Qlt in L.
Qed.

Lemma lift_mono (churn1 churn2 arpu1 arpu2 act1 act2 : num) :
  '0 [<=] churn2 -> churn2 [<=] churn1 -> churn1 [<=] '100 ->
  '0 [<=] arpu1 -> arpu1 [<=] arpu2 ->
  '0 [<=] act1 -> act1 [<=] act2 ->
  lift churn1 arpu1 act1 [<=] lift churn2 arpu2 act2.
Proof.
  intros. unfold lift.
  destruct baseline_positive as (zb & -> & Hb).
  destruct (@mrr_bounds a 12 churn1 churn2 arpu1 arpu2 act1 act2)
    as (z1 & z2 & -> & -> & Hz); trivial.
  apply pct_change_mono; lia.
Qed.

Lemma lift_integers (churn1 churn2 arpu1 arpu2 act1 act2 : num) :
  '0 [<=] churn2 -> churn2 [<=] churn1 -> churn1 [<=] '100 ->
  '0 [<=] arpu1 -> arpu1 [<=] arpu2 ->
  '0 [<=] act1 -> act1 [<=] act2 ->
  exists z1 z2 : Z,
    lift churn1 arpu1 act1 = Fin (inject_Z z1)
    /\ lift churn2 arpu2 act2 = Fin (inject_Z z2) /\ (z1 <= z2)%Z.
Proof.
  intros. unfold lift.
  destruct baseline_positive as (zb & -> & Hb).
  destruct (@mrr_bounds a 12 churn1 churn2 arpu1 arpu2 act1 act2)
    as (z1 & z2 & -> & -> & Hz); trivial.
  pose proof (@pct_change_mono z1 z2 zb Hb (proj2 Hz)) as M. revert M.
  destruct (@pct_change z1 zb Hb) as (y1 & -> & _).
  destruct (@pct_change z2 zb Hb) as (y2 & -> & _).
  intros M. exists y1, y2. repeat split. now apply le_integers.
Qed.

Lemma lift_at_baseline :
  lift a.(churnRate) a.(arpu) a.(activationRate) = '0.
Proof.
  unfold lift. fold (baseMRR12 a).
  destruct baseline_positive as (zb & -> & Hb).
  destruct (@pct_change zb zb Hb) as (z & -> & P & Q & _).
  assert (z = 0%Z) as -> by lia. reflexivity.
Qed.

Lemma lift_lower_bound (churn arpu activation : num) :
  '0 [<=] churn -> churn [<=] '100 -> '0 [<=] arpu -> '0 [<=] activation ->
  '(-100) [<=] lift churn arpu activation.
Proof.
  intros Hc0 Hc1 Hp Hv. unfold lift.
  destruct baseline_positive as (zb & -> & Hb).
  destruct (le_refl_of Hc0) as [_ Rc], (le_refl_of Hp) as [_ Rp],
    (le_refl_of Hv) as [_ Rv].
  destruct (@mrr_bounds a 12 churn churn arpu arpu activation activation)
    as (z1 & z2 & -> & _ & Hz); trivial.
  destruct (@pct_change z1 zb Hb) as (z & -> & _ & _ & P).
  apply le_integers, P. lia.
Qed.

Lemma lift_of_better (c p v : num) :
  '0 [<=] c -> c [<=] a.(churnRate) ->
  a.(arpu) [<=] p -> a.(activationRate) [<=] v ->
  '0 [<=] lift c p v.
Proof.
  intros. destruct a_churn. pose proof activation_nonneg.
  pose proof (@lift_mono a.(churnRate) c a.(arpu) p a.(activationRate) v) as M.
  rewrite lift_at_baseline in M. apply M; auto.
Qed.


Lemma impact_is_lift (leverId : LeverId) (value : num) :
  calcIndependentImpact a leverId value
  = match leverId with
    | Churn => lift value a.(arpu) a.(activationRate)
    | Arpu => lift a.(churnRate) value a.(activationRate)
    | Activation => lift a.(churnRate) a.(arpu) value
    end.
Proof. destruct leverId; reflexivity. Qed.


(** X4: under the same ranges, with every lever at a value that is not
    negative and a churn of at most 100, the headline lift and the impact on
    each lever card are at least -100 percent. *)
Theorem lift_at_least_minus_100 (st : State) :
  st.(st_assumptions) = a ->
  '0 [<=] effectiveChurn st -> effectiveChurn st [<=] '100 ->
  '0 [<=] effectiveArpu st -> '0 [<=] effectiveActivation st ->
  '(-100) [<=] mrrLift st
  /\ forall lever : Lever, In lever LEVERS ->
       '(-100) [<=] impactPct a lever
                      (currentVal lever.(id) (effectiveChurn st)
                         (effectiveArpu st) (effectiveActivation st)).
Proof.
  intros Ea Hc0 Hc1 Hp Hv. split.
  - unfold mrrLift, projMRR12. rewrite Ea. now apply lift_lower_bound.
  - pose proof activation_nonneg. destruct a_churn.
    intros lever Hin. unfold impactPct. rewrite impact_is_lift.
    destruct Hin as [<-|[<-|[<-|[]]]]; cbn [id currentVal];
      apply lift_lower_bound; auto.
Qed.

(** X5: under the same ranges, when no lever is on the wrong side of its
    baseline (churn at or below, ARPU and activation at or above), the impact
    shown on each lever card is not negative and not above the headline
    lift of the three levers together. *)
Theorem improvements_compound (st : State) (lever : Lever) :
  st.(st_assumptions) = a -> In lever LEVERS ->
  '0 [<=] effectiveChurn st -> effectiveChurn st [<=] a.(churnRate) ->
  a.(arpu) [<=] effectiveArpu st ->
  a.(activationRate) [<=] effectiveActivation st ->
  let shown := impactPct a lever
                 (currentVal lever.(id) (effectiveChurn st) (effectiveArpu st)
                    (effectiveActivation st)) in
  '0 [<=] shown /\ shown [<=] mrrLift st.
Proof.
  intros Ea Hin Hc0 Hc1 Hp Hv shown. unfold shown, impactPct.
  rewrite impact_is_lift. unfold mrrLift, projMRR12. rewrite Ea.
  pose proof activation_nonneg as Ha. destruct a_churn as [Hu0 Hu1].
  destruct (le_refl_of Hu0) as [_ Ruu], (le_refl_of a_arpu) as [_ Rpp],
    (le_refl_of Ha) as [_ Rvv].
  assert (Hc100 : effectiveChurn st [<=] '100) by now apply le_trans_of with a.(churnRate).
  assert (Hp0 : '0 [<=] effectiveArpu st) by now apply le_trans_of with a.(arpu).
  assert (Hv0 : '0 [<=] effectiveActivation st)
    by now apply le_trans_of with a.(activationRate).
  destruct (le_refl_of Hc0) as [_ Rc], (le_refl_of Hp0) as [_ Rp],
    (le_refl_of Hv0) as [_ Rv].
  destruct Hin as [<-|[<-|[<-|[]]]]; cbn [id currentVal]; split;
    (apply lift_of_better || apply lift_mono); auto.
Qed.

(** X6: under the same ranges, with no lever on the wrong side of its
    baseline, the projected series of the chart lies on or above the baseline
    series at each of the seven months, and both series are non-negative. *)
Theorem projected_series_above_baseline (c p v : num) :
  '0 [<=] c -> c [<=] a.(churnRate) ->
  a.(arpu) [<=] p -> a.(activationRate) [<=] v ->
  Forall2 (fun b x => '0 [<=] b /\ b [<=] x)
    (chart_baseline a) (chart_projected a c p v).
Proof.
  intros Hc0 Hc1 Hp Hv.
  pose proof activation_nonneg as Ha. destruct a_churn as [Hu0 Hu1].
  unfold chart_baseline, chart_projected.
  induction months as [|m ms IH]; cbn [map]; constructor; [|exact IH].
  destruct (@mrr_bounds a m a.(churnRate) c a.(arpu) p a.(activationRate) v)
    as (z1 & z2 & -> & -> & Hz); trivial.
  split; apply le_integers; lia.
Qed.

(** X7: under the same ranges, for a lever whose target lies on the better
    side of its baseline, once the value in effect is at the target or past
    it the plan row of that lever has [remaining] 0, the value at which the
    row reads "Already at or past target". *)
Theorem past_target_leaves_nothing (c p v : num) (lever : Lever)
    (r : RemainingUpside) :
  In lever LEVERS -> In r (remainingUpside a c p v) ->
  r.(scored).(item).(item_leverId) = lever.(id) ->
  let value := currentVal lever.(id) c p v in
  '0 [<=] value ->
  toward lever.(direction) (lever.(baseKey) a) lever.(targetValue) ->
  toward lever.(direction) lever.(targetValue) value ->
  r.(remaining) = '0.
Proof.
  intros Hin Hr Hid value Hv0 Ht Hv.
  pose proof activation_nonneg as Ha. destruct a_churn as [Hu0 Hu1].
  destruct (le_refl_of Hu0) as [_ Ruu], (le_refl_of a_arpu) as [_ Rpp],
    (le_refl_of Ha) as [_ Rvv].
  apply (Permutation_in _ (Permutation_sym (sort_by_perm _ _))) in Hr.
  unfold upsides, planItems in Hr. cbn [map] in Hr.
  destruct Hin as [<-|[<-|[<-|[]]]];
    destruct Hr as [<-|[<-|[<-|[]]]]; try discriminate Hid; clear Hid;
    cbn [remaining id direction baseKey targetValue toward currentVal
         item_leverId] in *;
    change (target_of Churn) with ('2 : num);
    change (target_of Arpu) with ('9 : num);
    change (target_of Activation) with ('60 : num);
    rewrite !impact_is_lift.
  - pose proof (le_trans_of Ht Hu1).
    destruct (@lift_integers a.(churnRate) '2 a.(arpu) a.(arpu)
                a.(activationRate) a.(activationRate))
      as (z0 & zt & E0 & Et & L0); trivial.
    destruct (@lift_integers '2 value a.(arpu) a.(arpu)
                a.(activationRate) a.(activationRate))
      as (zt' & zv & Et' & Ev & Lt); trivial.
    rewrite lift_at_baseline in E0. injection E0 as E0.
    rewrite Et in Et'. injection Et' as Et'.
    unfold value in Ev. cbn [currentVal] in Ev. rewrite Et, Ev.
    apply nothing_remains. lia.
  - pose proof (le_trans_of a_arpu Ht).
    destruct (@lift_integers a.(churnRate) a.(churnRate) a.(arpu) '9
                a.(activationRate) a.(activationRate))
      as (z0 & zt & E0 & Et & L0); trivial.
    destruct (@lift_integers a.(churnRate) a.(churnRate) '9 value
                a.(activationRate) a.(activationRate))
      as (zt' & zv & Et' & Ev & Lt); trivial.
    rewrite lift_at_baseline in E0. injection E0 as E0.
    rewrite Et in Et'. injection Et' as Et'.
    unfold value in Ev. cbn [currentVal] in Ev. rewrite Et, Ev.
    apply nothing_remains. lia.
  - pose proof (le_trans_of Ha Ht).
    destruct (@lift_integers a.(churnRate) a.(churnRate) a.(arpu) a.(arpu)
                a.(activationRate) '60)
      as (z0 & zt & E0 & Et & L0); trivial.
    destruct (@lift_integers a.(churnRate) a.(churnRate) a.(arpu) a.(arpu)
                '60 value)
      as (zt' & zv & Et' & Ev & Lt); trivial.
    rewrite lift_at_baseline in E0. injection E0 as E0.
    rewrite Et in Et'. injection Et' as Et'.
    unfold value in Ev. cbn [currentVal] in Ev. rewrite Et, Ev.
    apply nothing_remains. lia.
Qed.

End ImpactBounds.

(** ** The insight with fewer than two levers moved, and its largest lever *)

Section InsightFacts.

Import Exact ExactFacts.

Local Open Scope js_scope.

Ltac insight_cbn :=
  cbn [sort_by fold_right insert_by filter find pct leverId LeverId_eqb negb
       andb List.length Nat.eqb Nat.leb Nat.ltb nth_error sum_pct fold_left
       template_of label].

Lemma gt_zero (q : Q) : (Fin q >? '0) = true <-> (0 < q)%Q.
Proof.
  js_ops. unfold gt. destruct (Qlt_le_dec (inject_Z 0) q) as [L|L];
    unfold inject_Z in L; split; intros G; try reflexivity; try discriminate; lra.
Qed.

Lemma gt_zero_false (q : Q) : (Fin q >? '0) = false <-> (q <= 0)%Q.
Proof.
  js_ops. unfold gt. destruct (Qlt_le_dec (inject_Z 0) q) as [L|L];
    unfold inject_Z in L; split; intros G; try reflexivity; try discriminate; lra.
Qed.

Lemma gt_difference_false (kx ky : Q) :
  (Fin ky - Fin kx >? '0) = false <-> (ky <= kx)%Q.
Proof.
  js_ops. unfold sub, add, opp, gt.
  destruct (Qlt_le_dec (inject_Z 0) (ky + - kx)) as [L|L];
    unfold inject_Z in L; split; intros G; try reflexivity; try discriminate; lra.
Qed.

(** With no impact passing the filter [pct > 0], the sentence on the upside at
    the targets is selected. *)
Lemma no_modified_lever (a : @Assumptions num) (churn arpu activation : num) :
  (Math_abs (calcIndependentImpact a Churn churn) >? '0) = false ->
  (Math_abs (calcIndependentImpact a Arpu arpu) >? '0) = false ->
  (Math_abs (calcIndependentImpact a Activation activation) >? '0) = false ->
  template_of (generateCoreInsight a churn arpu activation) = upside_at_targets.
Proof.
  unfold generateCoreInsight.
  generalize (Math_abs (calcIndependentImpact a Churn churn))
             (Math_abs (calcIndependentImpact a Arpu arpu))
             (Math_abs (calcIndependentImpact a Activation activation)).
  intros r m v Er Em Ev. cbv zeta. insight_cbn.
  repeat match goal with
         | |- context [if (?x - ?y >? '0) then _ else _] =>
             destruct (x - y >? '0); insight_cbn
         end;
    rewrite ?Er, ?Em, ?Ev; insight_cbn; rewrite ?Er, ?Em, ?Ev; insight_cbn;
    rewrite ?Er, ?Em, ?Ev; reflexivity.
Qed.

Variable a : @Assumptions num.

(** X8: when no impact passes the filter [pct > 0], [generateCoreInsight]
    selects the sentence on the upside at the targets; when exactly one does,
    it reports that lever, with its own label and impact, as driving all the
    movement. *)
Theorem insight_below_two_levers (churn arpu activation : num) :
  let r := Math_abs (calcIndependentImpact a Churn churn) in
  let m := Math_abs (calcIndependentImpact a Arpu arpu) in
  let v := Math_abs (calcIndependentImpact a Activation activation) in
  (count_modified [r; m; v] = 0%nat ->
   template_of (generateCoreInsight a churn arpu activation) = upside_at_targets)
  /\ (count_modified [r; m; v] = 1%nat ->
      exists top : Impact,
        generateCoreInsight a churn arpu activation = DrivingAllTheMovement top
        /\ (top.(pct) >? '0) = true
        /\ top = match top.(leverId) with
                 | Churn => {| label := "retention"; pct := r; leverId := Churn |}
                 | Arpu => {| label := "monetization"; pct := m; leverId := Arpu |}
                 | Activation =>
                     {| label := "activation"; pct := v; leverId := Activation |}
                 end).
Proof.
  cbv zeta. split.
  - unfold count_modified. cbn [filter].
    destruct (Math_abs (calcIndependentImpact a Churn churn) >? '0) eqn:Er,
             (Math_abs (calcIndependentImpact a Arpu arpu) >? '0) eqn:Em,
             (Math_abs (calcIndependentImpact a Activation activation) >? '0) eqn:Ev;
      cbn [List.length]; try discriminate.
    intros _. now apply no_modified_lever.
  - unfold generateCoreInsight.
    generalize (Math_abs (calcIndependentImpact a Churn churn))
               (Math_abs (calcIndependentImpact a Arpu arpu))
               (Math_abs (calcIndependentImpact a Activation activation)).
    intros r m v. cbv zeta. unfold count_modified.
    destruct (r >? '0) eqn:Er, (m >? '0) eqn:Em, (v >? '0) eqn:Ev;
      cbn [filter]; rewrite ?Er, ?Em, ?Ev; cbn [List.length];
      intros Hc; try discriminate Hc; clear Hc; insight_cbn.
    all: repeat match goal with
         | |- context [if (?x - ?y >? '0) then _ else _] =>
             destruct (x - y >? '0); insight_cbn
         end.
    all: rewrite ?Er, ?Em, ?Ev; insight_cbn.
    all: rewrite ?Er, ?Em, ?Ev; insight_cbn.
    all: rewrite ?Er, ?Em, ?Ev; insight_cbn.
    all: eexists; split; [reflexivity|]; split; cbn [pct leverId]; trivial.
Qed.

(** X9: when the three absolute impacts are finite and the sentence on the
    largest lever is selected, the lever it names, with its own label and
    impact, has the largest of the three impacts; a runner-up is always
    named, and it is another lever, with its own label and impact, that
    passes the filter [pct > 0] and has the largest impact of the other
    two. *)
Theorem largest_lever_is_largest (churn arpu activation : num)
    (top : Impact) (runnerUp : option Impact) :
  let r := Math_abs (calcIndependentImpact a Churn churn) in
  let m := Math_abs (calcIndependentImpact a Arpu arpu) in
  let v := Math_abs (calcIndependentImpact a Activation activation) in
  let impacts :=
    [{| label := "retention"; pct := r; leverId := Churn |};
     {| label := "monetization"; pct := m; leverId := Arpu |};
     {| label := "activation"; pct := v; leverId := Activation |}] in
  finite r = true -> finite m = true -> finite v = true ->
  generateCoreInsight a churn arpu activation = LargestLever top runnerUp ->
  In top impacts
  /\ (forall i : Impact, In i impacts -> i.(pct) [<=] top.(pct))
  /\ exists second : Impact,
       runnerUp = Some second
       /\ In second impacts
       /\ second.(leverId) <> top.(leverId)
       /\ (second.(pct) >? '0) = true
       /\ forall i : Impact, In i impacts -> i.(leverId) <> top.(leverId) ->
            i.(pct) [<=] second.(pct).
Proof.
  unfold generateCoreInsight.
  generalize (Math_abs (calcIndependentImpact a Churn churn))
             (Math_abs (calcIndependentImpact a Arpu arpu))
             (Math_abs (calcIndependentImpact a Activation activation)).
  intros r m v. cbv zeta.
  intros [qr ->]%finite_inv [qm ->]%finite_inv [qv ->]%finite_inv.
  insight_cbn.
  destruct (Fin qv - Fin qm >? '0) eqn:Dvm; insight_cbn;
  destruct (Fin qm - Fin qr >? '0) eqn:Dmr; insight_cbn;
  destruct (Fin qv - Fin qr >? '0) eqn:Dvr; insight_cbn;
  destruct (Fin qr >? '0) eqn:Er; insight_cbn;
  destruct (Fin qm >? '0) eqn:Em; insight_cbn;
  destruct (Fin qv >? '0) eqn:Ev; insight_cbn;
  try discriminate.
  all: try (destruct (_ >? _ * lit 1.5); try discriminate).
  all: intros [= <- <-]; cbn [In pct leverId].
  all: rewrite ?gt_difference, ?gt_difference_false in *.
  all: rewrite ?gt_zero, ?gt_zero_false in *.
  all: split; [auto 6|].
  all: split; [intros i [<-|[<-|[<-|[]]]]; cbn [pct]; apply le_fin; lra|].
  all: eexists; split; [reflexivity|]; cbn [In pct leverId].
  all: split; [auto 6|].
  all: split; [discriminate|].
  all: split; [apply gt_zero; lra|].
  all: intros i [<-|[<-|[<-|[]]]] Hne; cbn [pct leverId] in *;
    try (now contradiction Hne); apply le_fin; lra.
Qed.

(** X10: when the sentence on retention and monetization is selected, the
    combined uplift it reports is the sum of the absolute impacts of the churn
    and the ARPU, and the figure it sets against it is the absolute impact of
    the activation. *)
Theorem retention_and_monetization_figures (churn arpu activation : num)
    (combined acq : num) :
  let r := Math_abs (calcIndependentImpact a Churn churn) in
  let m := Math_abs (calcIndependentImpact a Arpu arpu) in
  let v := Math_abs (calcIndependentImpact a Activation activation) in
  generateCoreInsight a churn arpu activation
  = RetentionAndMonetization combined acq ->
  combined = r + m /\ acq = v.
Proof.
  unfold generateCoreInsight.
  generalize (Math_abs (calcIndependentImpact a Churn churn))
             (Math_abs (calcIndependentImpact a Arpu arpu))
             (Math_abs (calcIndependentImpact a Activation activation)).
  intros r m v. cbv zeta. insight_cbn.
  destruct (v - m >? '0) eqn:Dvm; insight_cbn;
  destruct (m - r >? '0) eqn:Dmr; insight_cbn;
  destruct (v - r >? '0) eqn:Dvr; insight_cbn;
  destruct (r >? '0) eqn:Er; insight_cbn;
  destruct (m >? '0) eqn:Em; insight_cbn;
  destruct (v >? '0) eqn:Ev; insight_cbn;
  try discriminate.
  all: try (destruct (_ >? _ * lit 1.5); try discriminate).
  all: intros E; rewrite ?add_zero_l, ?(add_commutes m r) in E.
  all: injection E as <- <-; split; reflexivity.
Qed.

End InsightFacts.

(** ** The state without overrides, and with every target hit *)

Section NeutralAndTargets.

Import Exact ExactFacts.

Local Open Scope js_scope.

Lemma same_difference_is_zero (x : Z) :
  Math_max '0 (Math_abs (Fin (inject_Z x)) - Math_abs (Fin (inject_Z x))) = '0.
Proof.
  js_ops. unfold abs, sub, add, opp, max, gt.
  destruct (Qlt_le_dec _ _) as [L|L]; [exfalso|reflexivity].
  unfold inject_Z in L. lra.
Qed.

Lemma sort_by_zero_keys {A : Type} (key : A -> num) (l : list A) :
  Forall (fun x => key x = '0) l ->
  sort_by (fun x y => key y - key x) l = l.
Proof.
  induction 1 as [|x l Hx Hl IH]; cbn [sort_by fold_right]; [reflexivity|].
  change (fold_right (insert_by (fun x y => key y - key x)) [] l)
    with (sort_by (fun x y => key y - key x) l).
  rewrite IH. destruct Hl as [|y l Hy Hl]; [reflexivity|].
  cbn [insert_by]. now rewrite Hx, Hy.
Qed.

Lemma eq_self (x : num) : finite x = true -> js_eq x x = true.
Proof.
  destruct x as [q| |]; try discriminate. intros _.
  apply Qeq_bool_iff. reflexivity.
Qed.

Variable a : @Assumptions num.
Hypothesis a_finite : finite_assumptions a = true.
Hypothesis a_activation : nonzero a.(activationRate) = true.
Hypothesis a_baseline : nonzero (baseMRR12 a) = true.

Lemma impact_of_baseline (lever : Lever) :
  In lever LEVERS -> calcIndependentImpact a lever.(id) (lever.(baseKey) a) = '0.
Proof.
  intros [<-|[<-|[<-|[]]]]; apply pct_of_self; exact a_baseline.
Qed.

Lemma baselines_finite (lever : Lever) :
  In lever LEVERS -> finite (lever.(baseKey) a) = true.
Proof.
  pose proof a_finite as F. unfold finite_assumptions in F.
  repeat (apply andb_prop in F as [F ?]).
  intros [<-|[<-|[<-|[]]]]; assumption.
Qed.

(** X11: for an assumption set of finite numbers with a non-zero baseline
    month-12 MRR, in a state whose three levers are in effect at their
    baseline values (no override, or overrides equal to the baselines, as
    after a slider is dragged back), the lift [mrrLift] is 0 (the header
    renders it only under [isModified], that is in the second case), the
    insight is the one about the upside at the targets, and every lever card
    shows the line "Up to ..." with the impact of the lever's target. *)
Theorem levers_at_baseline_are_neutral (st : State) :
  st.(st_assumptions) = a ->
  effectiveChurn st = a.(churnRate) ->
  effectiveArpu st = a.(arpu) ->
  effectiveActivation st = a.(activationRate) ->
  mrrLift st = '0
  /\ template_of (coreInsight st) = upside_at_targets
  /\ forall lever : Lever, In lever LEVERS ->
       card_of st lever = UpTo (potentialPct a lever).
Proof.
  intros Ea Ec Ep Ev.
  pose proof (@impact_of_baseline _ (or_introl eq_refl)) as Ic.
  pose proof (@impact_of_baseline _ (or_intror (or_introl eq_refl))) as Ip.
  pose proof (@impact_of_baseline _ (or_intror (or_intror (or_introl eq_refl))))
    as Iv.
  cbn [id baseKey] in Ic, Ip, Iv.
  split; [|split].
  - unfold mrrLift, projMRR12. rewrite Ec, Ep, Ev, Ea.
    apply pct_of_self. exact a_baseline.
  - unfold coreInsight. rewrite Ec, Ep, Ev, Ea.
    apply no_modified_lever; rewrite ?Ic, ?Ip, ?Iv; reflexivity.
  - intros lever Hin. unfold card_of, card_line, isAtBaseline.
    rewrite Ec, Ep, Ev, Ea.
    pose proof (baselines_finite Hin) as F.
    destruct Hin as [<-|[<-|[<-|[]]]]; cbn [id baseKey currentVal] in *;
      now rewrite eq_self.
Qed.

(** X12: for an assumption set of finite numbers with a non-zero activation
    rate and a non-zero baseline month-12 MRR, after "hit all targets" every
    row of the plan has [remaining] 0, and the rows stand in the order the
    plan declares them: retention, activation, monetization. *)
Theorem all_targets_empty_the_plan (st : State) :
  st.(st_assumptions) = a ->
  map (fun r => (r.(scored).(item).(item_leverId), r.(remaining)))
      (plan (hitAllTargets st))
  = [(Churn, '0); (Activation, '0); (Arpu, '0)].
Proof.
  intros Ea. unfold plan, hitAllTargets, setter, effectiveChurn, effectiveArpu,
    effectiveActivation.
  cbn [st_assumptions st_churn st_arpu st_activation nullish]. rewrite Ea.
  unfold remainingUpside, upsides, planItems. cbn [map item_leverId upside currentImpact currentVal].
  change (target_of Churn) with ('2 : num);
  change (target_of Arpu) with ('9 : num);
  change (target_of Activation) with ('60 : num).
  destruct (@impact_finite a a_finite a_activation a_baseline Churn '2)
    as [zc ->]; [reflexivity|].
  destruct (@impact_finite a a_finite a_activation a_baseline Arpu '9)
    as [zp ->]; [reflexivity|].
  destruct (@impact_finite a a_finite a_activation a_baseline Activation '60)
    as [zv ->]; [reflexivity|].
  rewrite !same_difference_is_zero.
  rewrite sort_by_zero_keys by (repeat constructor). reflexivity.
Qed.

End NeutralAndTargets.

(** ** The chart *)

Section ChartFacts.

Import Exact ExactFacts.

Local Open Scope js_scope.

(** [Math.max] over finite numbers, from a finite start. *)
Lemma fold_max_fin (l : list num) (m0 : Q) :
  Forall (fun x => finite x = true) l ->
  exists m : Q,
    fold_left Math_max l (Fin m0) = Fin m
    /\ (m0 <= m)%Q /\ Forall (fun x => x [<=] Fin m) l.
Proof.
  intros F. revert m0. induction F as [|x l Fx Fl IH]; intros m0.
  - exists m0. repeat split; [apply Qle_refl|constructor].
  - apply finite_inv in Fx as [q ->]. cbn [fold_left].
    change (Math_max (Fin m0) (Fin q)) with (max (Fin m0) (Fin q)).
    unfold max, gt. destruct (Qlt_le_dec m0 q) as [L|L].
    + destruct (IH q) as (m & -> & Hm & Hl). exists m. repeat split.
      * lra.
      * constructor; [now apply le_fin | exact Hl].
    + destruct (IH m0) as (m & -> & Hm & Hl). exists m. repeat split.
      * exact Hm.
      * constructor; [apply le_fin; lra | exact Hl].
Qed.

Lemma max_of_fin (x : num) (l : list num) :
  Forall (fun x => finite x = true) (x :: l) ->
  exists m : Q,
    Math_max_of (x :: l) = Fin m /\ Forall (fun y => y [<=] Fin m) (x :: l).
Proof.
  intros F. inversion F as [|? ? Fx Fl]; subst.
  apply finite_inv in Fx as [q ->].
  unfold Math_max_of. cbn [fold_left].
  change (Math_max js_neg_infinity (Fin q)) with (Fin q).
  destruct (fold_max_fin q Fl) as (m & -> & Hm & Hl).
  exists m. split; [reflexivity|]. constructor; [now apply le_fin | exact Hl].
Qed.

Lemma point_x_in_box (i : nat) :
  (i < List.length months)%nat -> '5 [<=] point_x i /\ point_x i [<=] '395.
Proof.
  cbn [months List.length]. intros Hi.
  do 7 (destruct i as [|i]; [split; vm_compute; reflexivity|]). lia.
Qed.

Lemma point_y_in_box (mv q : Q) :
  (0 <= q)%Q -> (q * 1.08 <= mv)%Q -> (0 < mv)%Q ->
  '21 [<=] point_y (Fin mv) (Fin q) /\ point_y (Fin mv) (Fin q) [<=] '160.
Proof.
  intros Hq Hm Hmv. unfold point_y, chartH. js_ops. unfold sub, add, opp, div.
  rewrite (@Qzero_false mv) by lra. unfold mul.
  set (t := (q / mv)%Q).
  assert (T0 : (0 <= t)%Q) by (apply Qle_shift_div_l; lra).
  assert (T2 : (t * 1.08 <= 1)%Q).
  { assert (E : (t * 1.08 == q * 1.08 / mv)%Q) by (unfold t; field; lra).
    rewrite E. apply Qle_shift_div_r; lra. }
  unfold inject_Z.
  split; apply le_fin; lra.
Qed.

Lemma point_y_undefined (mv q : Q) :
  (0 <= q)%Q -> (q * 1.08 <= mv)%Q -> (mv == 0)%Q ->
  point_y (Fin mv) (Fin q) = NaN.
Proof.
  intros Hq Hm Hmv. unfold point_y, chartH. js_ops. unfold sub, add, opp, div.
  assert (Z1 : Qzero mv = true) by now apply Qeq_bool_iff.
  assert (Z2 : Qzero q = true) by (apply Qeq_bool_iff; lra).
  now rewrite Z1, Z2.
Qed.

Lemma in_points (mv : num) (series : list num) (pt : num * num) :
  In pt (points mv series) ->
  exists (i : nat) (x : num),
    (i < List.length months)%nat /\ In x series
    /\ pt = (point_x i, point_y mv x).
Proof.
  unfold points. intros ((i & x) & <- & Hix)%in_map_iff. exists i, x.
  repeat split.
  - apply in_combine_l in Hix. apply in_seq in Hix. lia.
  - now apply in_combine_r in Hix.
Qed.

Variable a : @Assumptions num.
Hypothesis a_in_range : in_range a.
Hypothesis a_churn : '0 [<=] a.(churnRate) /\ a.(churnRate) [<=] '100.
Hypothesis a_arpu : '0 [<=] a.(arpu).

Variables c p v : num.
Hypothesis c_range : '0 [<=] c /\ c [<=] '100.
Hypothesis p_range : '0 [<=] p.
Hypothesis v_range : '0 [<=] v.

Lemma series_nonneg (x : num) :
  In x (chart_projected a c p v ++ chart_baseline a) ->
  exists z : Z, x = Fin (inject_Z z) /\ (0 <= z)%Z.
Proof.
  destruct a_churn as [Hu0 Hu1], c_range as [Hc0 Hc1].
  destruct (le_refl_of Hu0) as [_ Ru], (le_refl_of a_arpu) as [_ Rp],
    (le_refl_of Hc0) as [_ Rc], (le_refl_of p_range) as [_ Rpp],
    (le_refl_of v_range) as [_ Rv].
  pose proof (activation_nonneg a_in_range) as Ha.
  destruct (le_refl_of Ha) as [_ Ra].
  intros [Hx|Hx]%in_app_or; unfold chart_projected, chart_baseline in Hx;
    apply in_map_iff in Hx as (m & <- & _).
  - destruct (@mrr_bounds a m c c p p v v) as (z & z' & -> & _ & Hz); trivial.
    exists z. split; [reflexivity|lia].
  - destruct (@mrr_bounds a m a.(churnRate) a.(churnRate) a.(arpu) a.(arpu)
                a.(activationRate) a.(activationRate))
      as (z & z' & -> & _ & Hz); trivial.
    exists z. split; [reflexivity|lia].
Qed.

(** The scale of the chart: a finite number, and every value of the two
    series is a non-negative number with 1.08 times it within the scale. *)
Lemma chart_scale :
  exists mv : Q,
    maxVal a c p v = Fin mv
    /\ forall x : num, In x (chart_projected a c p v ++ chart_baseline a) ->
         exists q : Q, x = Fin q /\ (0 <= q)%Q /\ (q * 1.08 <= mv)%Q.
Proof.
  unfold maxVal.
  assert (F : Forall (fun x => finite x = true)
                (chart_projected a c p v ++ chart_baseline a)).
  { apply Forall_forall. intros x Hx.
    destruct (series_nonneg Hx) as (z & -> & _). reflexivity. }
  pose proof series_nonneg as N.
  destruct (chart_projected a c p v ++ chart_baseline a) as [|x l] eqn:El.
  { discriminate El. }
  destruct (max_of_fin F) as (m & -> & Hm).
  exists (m * 1.08)%Q. split; [reflexivity|].
  intros y Hy. destruct (N y Hy) as (z & -> & Hz).
  exists (inject_Z z). repeat split.
  - change 0%Q with (inject_Z 0). now rewrite <- Zle_Qle.
  - rewrite Forall_forall in Hm. apply Hm, le_fin in Hy.
    apply Qmult_le_compat_r; [exact Hy | discriminate].
Qed.

(* The two statements on the whole chart keep their arguments explicit. *)
Unset Implicit Arguments.

(** X13: for an assumption set within its ranges and lever values that are
    not negative (the churn at most 100), when the largest value of the chart
    is positive every point of the projected and the baseline line lies
    inside the drawing area: x between 5 and 395, y between 21 and 160. *)
Theorem chart_points_in_box (pt : num * num) :
  '0 [<] maxVal a c p v ->
  In pt (projected_points a c p v ++ baseline_points a c p v) ->
  '5 [<=] fst pt /\ fst pt [<=] '395 /\ '21 [<=] snd pt /\ snd pt [<=] '160.
Proof.
  intros Hpos Hin.
  destruct chart_scale as (mv & E & Hs).
  unfold projected_points, baseline_points in Hin. rewrite E in *.
  apply lt_fin in Hpos. change (inject_Z 0) with 0%Q in Hpos.
  assert (exists i x, (i < List.length months)%nat
            /\ In x (chart_projected a c p v ++ chart_baseline a)
            /\ pt = (point_x i, point_y (Fin mv) x)) as (i & x & Hi & Hx & ->).
  { apply in_app_or in Hin as [Hin|Hin];
      apply in_points in Hin as (i & x & Hi & Hx & ->); exists i, x;
      repeat split; trivial; apply in_or_app; auto. }
  destruct (Hs x Hx) as (q & -> & Hq & Hm). cbn [fst snd].
  destruct (point_x_in_box Hi) as [X1 X2].
  destruct (point_y_in_box Hq Hm Hpos) as [Y1 Y2].
  repeat split; assumption.
Qed.

(** X14: under the same ranges, when the largest value of the chart is zero
    (as with the ARPU field emptied) every point of the two lines has the
    y-coordinate [NaN]. *)
Theorem chart_without_revenue_is_undefined (pt : num * num) :
  zero (maxVal a c p v) = true ->
  In pt (projected_points a c p v ++ baseline_points a c p v) ->
  snd pt = NaN.
Proof.
  intros Hz Hin.
  destruct chart_scale as (mv & E & Hs).
  unfold projected_points, baseline_points in Hin. rewrite E in *.
  cbn [zero] in Hz. apply Qeq_bool_iff in Hz.
  assert (exists i x, In x (chart_projected a c p v ++ chart_baseline a)
            /\ pt = (point_x i, point_y (Fin mv) x)) as (i & x & Hx & ->).
  { apply in_app_or in Hin as [Hin|Hin];
      apply in_points in Hin as (i & x & Hi & Hx & ->); exists i, x;
      split; trivial; apply in_or_app; auto. }
  destruct (Hs x Hx) as (q & -> & Hq & Hm). cbn [snd].
  now apply point_y_undefined.
Qed.

End ChartFacts.

Set Implicit Arguments.

(** ** The handlers *)

Section HandlerFacts.

Import Exact ExactFacts.

Local Open Scope js_scope.

Lemma or_zero_not_nan (x : num) : ExactCompare.is_nan (or_zero x) = false.
Proof. destruct x as [q| |]; unfold or_zero; cbn; [destruct (Qzero q)|..]; reflexivity. Qed.



Lemma no_nan_set (a : @Assumptions num) (key : AssumptionKey) (val : num) :
  no_nan a = true -> ExactCompare.is_nan val = false ->
  no_nan (set_assumption a key val) = true.
Proof.
  unfold no_nan. cbn [forallb get_assumption]. intros Ha N.
  repeat (apply andb_prop in Ha as [? Ha]).
  destruct key;
    cbn [set_assumption customers arpu churnRate activationRate leadsPerMonth
         demoRate trialRate paidRate leadGrowthRate];
    rewrite ?N; repeat (apply andb_true_intro; split); trivial.
Qed.


(** X16: no sequence of events leads from the initial state to an assumption
    set with a [NaN] in it. *)
Theorem assumptions_never_nan (events : list Event) :
  no_nan (run initial_state events).(st_assumptions) = true.
Proof.
  unfold run.
  assert (H0 : no_nan initial_state.(st_assumptions) = true) by reflexivity.
  revert H0. generalize (@initial_state num _). 
  induction events as [|e events IH]; intros st Hst; cbn [fold_left]; [exact Hst|].
  apply IH. destruct e as [key parsed| | | | | |]; cbn [step]; trivial.
  apply no_nan_set; [exact Hst | apply or_zero_not_nan].
Qed.

(** X17: for each lever, at a value between the ends of its slider the filled
    share of the track is between 0 and 100 percent. *)
Theorem slider_fill_in_range (lever : Lever) (value : num) :
  In lever LEVERS ->
  lever.(lever_min) [<=] value -> value [<=] lever.(lever_max) ->
  '0 [<=] slider_fill lever value /\ slider_fill lever value [<=] '100.
Proof.
  unfold slider_fill.
  intros [<-|[<-|[<-|[]]]]; cbn [lever_min lever_max];
    intros (? & q & E & -> & L1)%le_inv (? & ? & E1 & E2 & L2)%le_inv;
    injection E as <-; injection E1 as <-; injection E2 as <-;
    js_ops; unfold sub, add, opp, div;
    match goal with
    | |- context [Qzero (?hi + - ?lo)] =>
        change (Qzero (hi + - lo)) with false;
        set (t := ((q + - lo) / (hi + - lo))%Q);
        assert (T0 : (0 <= t)%Q)
          by (apply Qle_shift_div_l; [reflexivity | unfold inject_Z in *; lra]);
        assert (T1 : (t <= 1)%Q)
          by (apply Qle_shift_div_r; [reflexivity | unfold inject_Z in *; lra])
    end;
    unfold mul; split; apply le_fin; unfold inject_Z; lra.
Qed.

End HandlerFacts.


(** ** The components on the default scenario *)

Section ComponentDefaults.

Import Exact ExactFacts.

Local Open Scope js_scope.

Let D : @Assumptions num := DEFAULT_ASSUMPTIONS.

Let retention : Lever :=
  {| id := Churn; lever_label := "Retention"; baseKey := churnRate;
     targetValue := '2; lever_min := lit 0.5; lever_max := '10;
     lever_step := lit 0.5; direction := lower_is_better |}.

Let monetization : Lever :=
  {| id := Arpu; lever_label := "Monetization"; baseKey := arpu;
     targetValue := '9; lever_min := '2; lever_max := '20;
     lever_step := lit 0.5; direction := higher_is_better |}.

Lemma levers_by_name : In retention LEVERS /\ In monetization LEVERS.
Proof. split; [left | right; left]; reflexivity. Qed.

Lemma defaults_churn : '0 [<=] D.(churnRate) /\ D.(churnRate) [<=] '100.
Proof. split; reflexivity. Qed.

Lemma defaults_baseline : '0 [<] baseMRR12 D.
Proof. vm_compute. reflexivity. Qed.


(** The churn raised to 10, the end of its slider, costs 20 percent. *)
Lemma lift_at_least_minus_100_default :
  let st := run initial_state [SliderMoved Churn '10] in
  '(-100) [<=] mrrLift st /\ mrrLift st = '(-20).
Proof.
  intros st. split; [|vm_compute; reflexivity].
  exact (proj1 (@lift_at_least_minus_100 D defaults_in_range defaults_churn
                  eq_refl defaults_baseline st eq_refl eq_refl eq_refl eq_refl
                  eq_refl)).
Defined.

(** With every target hit, the ARPU card shows 50 percent of a headline lift
    of 120. *)
Lemma improvements_compound_default :
  let st := run initial_state [HitAllTargets] in
  let shown := impactPct D monetization (effectiveArpu st) in
  '0 [<=] shown /\ shown [<=] mrrLift st
  /\ shown = '50 /\ mrrLift st = '120.
Proof.
  intros st shown.
  destruct (@improvements_compound D defaults_in_range defaults_churn eq_refl
              defaults_baseline st monetization eq_refl (proj2 levers_by_name)
              eq_refl eq_refl eq_refl eq_refl) as [W1 W2].
  split; [exact W1|]. split; [exact W2|]. split; vm_compute; reflexivity.
Defined.

Lemma projected_series_above_baseline_default :
  Forall2 (fun b x => '0 [<=] b /\ b [<=] x)
    (chart_baseline D) (chart_projected D '2 '9 '60)
  /\ chart_baseline D
     = ['90000; '238481; '407680; '605525; '841635; '1127821; '1478690]
  /\ chart_projected D '2 '9 '60
     = ['135000; '447250; '824293; '1283918; '1848472; '2546056; '3412021].
Proof.
  split; [|split; vm_compute; reflexivity].
  exact (@projected_series_above_baseline D defaults_in_range defaults_churn
           eq_refl '2 '9 '60 eq_refl eq_refl eq_refl eq_refl).
Defined.

(** With the churn at 1, past its target of 2, the retention row comes last
    with nothing remaining of its upside of 16. *)
Lemma past_target_leaves_nothing_default :
  map (fun r => (r.(scored).(item).(item_leverId), r.(scored).(upside),
                 r.(scored).(currentImpact))) (remainingUpside D '1 '6 '35)
  = [(Arpu, '50, '0); (Activation, '27, '0); (Churn, '16, '22)]
  /\ forall r : RemainingUpside,
       nth_error (remainingUpside D '1 '6 '35) 2 = Some r -> r.(remaining) = '0.
Proof.
  split; [vm_compute; reflexivity|].
  intros r Hr.
  assert (Hin : In r (remainingUpside D '1 '6 '35))
    by (eapply nth_error_In; exact Hr).
  assert (Hid : r.(scored).(item).(item_leverId) = retention.(id)).
  { vm_compute in Hr. injection Hr as <-. reflexivity. }
  pose proof (@past_target_leaves_nothing D defaults_in_range defaults_churn
                eq_refl defaults_baseline '1 '6 '35 retention r
                (proj1 levers_by_name) Hin Hid) as W.
  cbv zeta in W. apply W; vm_compute; reflexivity.
Defined.

(** With the churn alone lowered to 3, retention drives all the movement. *)
Lemma insight_below_two_levers_default :
  count_modified [Math_abs (calcIndependentImpact D Churn '3);
                  Math_abs (calcIndependentImpact D Arpu '6);
                  Math_abs (calcIndependentImpact D Activation '35)] = 1%nat
  /\ exists top : Impact,
       generateCoreInsight D '3 '6 '35 = DrivingAllTheMovement top
       /\ (top.(pct) >? '0) = true
       /\ top = match top.(leverId) with
                | Churn =>
                    {| label := "retention"; leverId := Churn;
                       pct := Math_abs (calcIndependentImpact D Churn '3) |}
                | Arpu =>
                    {| label := "monetization"; leverId := Arpu;
                       pct := Math_abs (calcIndependentImpact D Arpu '6) |}
                | Activation =>
                    {| label := "activation"; leverId := Activation;
                       pct := Math_abs (calcIndependentImpact D Activation '35) |}
                end.
Proof.
  assert (H1 : count_modified
                 [Math_abs (calcIndependentImpact D Churn '3);
                  Math_abs (calcIndependentImpact D Arpu '6);
                  Math_abs (calcIndependentImpact D Activation '35)] = 1%nat)
    by (vm_compute; reflexivity).
  split; [exact H1|].
  exact (proj2 (@insight_below_two_levers D '3 '6 '35) H1).
Defined.

(** With the churn and the ARPU at their targets: monetization at 50 percent,
    then retention at 16. *)
Lemma largest_lever_is_largest_default :
  let top := {| label := "monetization"; pct := '50; leverId := Arpu |} in
  let second := {| label := "retention"; pct := '16; leverId := Churn |} in
  let impacts :=
    [{| label := "retention"; leverId := Churn;
        pct := Math_abs (calcIndependentImpact D Churn '2) |};
     {| label := "monetization"; leverId := Arpu;
        pct := Math_abs (calcIndependentImpact D Arpu '9) |};
     {| label := "activation"; leverId := Activation;
        pct := Math_abs (calcIndependentImpact D Activation '35) |}] in
  generateCoreInsight D '2 '9 '35 = LargestLever top (Some second)
  /\ In top impacts
  /\ (forall i : Impact, In i impacts -> i.(pct) [<=] top.(pct))
  /\ exists second' : Impact,
       Some second = Some second'
       /\ In second' impacts
       /\ second'.(leverId) <> top.(leverId)
       /\ (second'.(pct) >? '0) = true
       /\ forall i : Impact, In i impacts -> i.(leverId) <> top.(leverId) ->
            i.(pct) [<=] second'.(pct).
Proof.
  intros top second impacts.
  assert (H1 : generateCoreInsight D '2 '9 '35 = LargestLever top (Some second))
    by (vm_compute; reflexivity).
  split; [exact H1|].
  pose proof (@largest_lever_is_largest D '2 '9 '35 top (Some second)) as W.
  cbv zeta in W. apply W; trivial; vm_compute; reflexivity.
Defined.

(** With the three levers moved, activation to 40 only: 66 percent combined
    against 5. *)
Lemma retention_and_monetization_figures_default :
  generateCoreInsight D '2 '9 '40 = RetentionAndMonetization '66 '5
  /\ '66 = Math_abs (calcIndependentImpact D Churn '2)
           + Math_abs (calcIndependentImpact D Arpu '9)
  /\ '5 = Math_abs (calcIndependentImpact D Activation '40).
Proof.
  assert (H1 : generateCoreInsight D '2 '9 '40 = RetentionAndMonetization '66 '5)
    by (vm_compute; reflexivity).
  split; [exact H1|].
  exact (@retention_and_monetization_figures D '2 '9 '40 '66 '5 H1).
Defined.

Lemma defaults_finite :
  finite_assumptions D = true /\ nonzero D.(activationRate) = true
  /\ nonzero (baseMRR12 D) = true.
Proof. repeat split; vm_compute; reflexivity. Qed.

(** The churn dragged to 3 and back to 5: an override is set, so the lift is
    rendered, and it is 0. *)
Lemma levers_at_baseline_are_neutral_default :
  let st := run initial_state [SliderMoved Churn '3; SliderMoved Churn '5] in
  isModified st = true
  /\ mrrLift st = '0
  /\ template_of (coreInsight st) = upside_at_targets
  /\ forall lever : Lever, In lever LEVERS ->
       card_of st lever = UpTo (potentialPct D lever).
Proof.
  intros st. split; [reflexivity|].
  destruct defaults_finite as (F1 & F2 & F3).
  exact (@levers_at_baseline_are_neutral D F1 F3 st eq_refl eq_refl eq_refl
           eq_refl).
Defined.

Lemma all_targets_empty_the_plan_default :
  map (fun r => (r.(scored).(item).(item_leverId), r.(remaining)))
      (plan (hitAllTargets (run initial_state [SliderMoved Churn '3])))
  = [(Churn, '0); (Activation, '0); (Arpu, '0)].
Proof.
  destruct defaults_finite as (F1 & F2 & F3).
  exact (@all_targets_empty_the_plan D F1 F2 F3
           (run initial_state [SliderMoved Churn '3]) eq_refl).
Defined.

(** The month-12 point of the projected line with every target hit. *)
Lemma chart_points_in_box_default :
  let pt := nth 4 (projected_points D '2 '9 '60) (NaN, NaN) in
  maxVal D '2 '9 '60 = lit 3684982.68
  /\ '5 [<=] fst pt /\ fst pt [<=] '395 /\ '21 [<=] snd pt /\ snd pt [<=] '160.
Proof.
  intros pt. split; [vm_compute; reflexivity|].
  assert (Hpos : '0 [<] maxVal D '2 '9 '60) by (vm_compute; reflexivity).
  assert (Hin : In pt (projected_points D '2 '9 '60 ++ baseline_points D '2 '9 '60)).
  { apply in_or_app. left. apply nth_In. vm_compute. lia. }
  exact (@chart_points_in_box D defaults_in_range defaults_churn eq_refl
           '2 '9 '60 (conj eq_refl eq_refl) eq_refl eq_refl pt Hpos Hin).
Defined.

Lemma cleared_in_range : in_range ARPU_CLEARED.
Proof. repeat split. Qed.

(** The month-12 point of the baseline line after the ARPU field was
    emptied. *)
Lemma chart_without_revenue_is_undefined_cleared :
  let pt := nth 4 (baseline_points ARPU_CLEARED '5 '0 '35) ('0, '0) in
  zero (maxVal ARPU_CLEARED '5 '0 '35) = true /\ snd pt = NaN.
Proof.
  intros pt.
  assert (Hz : zero (maxVal ARPU_CLEARED '5 '0 '35) = true)
    by (vm_compute; reflexivity).
  split; [exact Hz|].
  assert (Hin : In pt (projected_points ARPU_CLEARED '5 '0 '35
                       ++ baseline_points ARPU_CLEARED '5 '0 '35)).
  { apply in_or_app. right. apply nth_In. vm_compute. lia. }
  exact (@chart_without_revenue_is_undefined ARPU_CLEARED cleared_in_range
           (conj eq_refl eq_refl) eq_refl '5 '0 '35 (conj eq_refl eq_refl)
           eq_refl eq_refl pt Hz Hin).
Defined.


Lemma slider_fill_in_range_default :
  '0 [<=] slider_fill retention '5 /\ slider_fill retention '5 [<=] '100.
Proof.
  exact (@slider_fill_in_range retention '5 (proj1 levers_by_name) eq_refl eq_refl).
Defined.

End ComponentDefaults.

(** ** The components at binary64 *)

Section Binary64Components.

Import PrimFloat.

Local Open Scope js_scope.

#[local] Existing Instance B64.
#[local] Existing Instance B64_JSCompare.

Let start : @State float := initial_state.
Let cleared : @Assumptions float := ARPU_CLEARED.

(** The churn dragged to 3: the lift, the lines of the three cards and the
    insight. *)
Example binary64_one_lever :
  let st := run start [SliderMoved Churn '3] in
  mrrLift st = 10%float
  /\ map (card_of st) LEVERS
     = [ThisLeverAlone 10%float; UpTo 50%float; UpTo 27%float]
  /\ coreInsight st
     = DrivingAllTheMovement
         {| label := "retention"; pct := 10%float; leverId := Churn |}.
Proof. vm_compute. repeat split. Qed.

(** Every target hit: the plan, and the ends of the projected line. *)
Example binary64_all_targets :
  let st := run start [SliderMoved Churn '3; HitAllTargets] in
  map (fun r => (r.(scored).(item).(item_leverId), r.(remaining))) (plan st)
  = [(Churn, 0%float); (Activation, 0%float); (Arpu, 0%float)]
  /\ map fst (projected_points st.(st_assumptions) (effectiveChurn st)
                (effectiveArpu st) (effectiveActivation st))
     = [5%float; 70%float; 135%float; 200%float; 265%float; 330%float;
        395%float].
Proof. vm_compute. repeat split. Qed.

(** The ARPU field emptied: 0 is stored, the override of the ARPU is dropped,
    and the chart has no y-coordinate. *)
Example binary64_arpu_cleared :
  let st := run start [SliderMoved Arpu '9; AssumptionTyped key_arpu nan] in
  st.(st_assumptions) = cleared
  /\ st.(st_arpu) = None
  /\ map (card_of st) LEVERS = [UpTo nan; UpTo infinity; UpTo nan]
  /\ map snd (baseline_points cleared '5 '0 '35)
     = [nan; nan; nan; nan; nan; nan; nan].
Proof. vm_compute. repeat split. Qed.

End Binary64Components.
